(** * cPanelBackupPlus: a model of [cpanel_backup_plus.py]

    The script triggers a full cPanel backup, waits, looks the archive up in
    the account's home directory, uploads it to S3 or Google Drive, purges old
    remote backups and removes the local archive.

    The model is a shallow embedding.  Everything the script talks to (the
    cPanel API, boto3, the Drive client, the operating system where a call
    on a local path can fail) answers through an environment record [Env];
    the script itself is a program in a small monad that threads the local
    file system, propagates exceptions and collects the calls and log
    records the script issues, in order.

    [script] is the driver from its first statement, the set-up of its
    logger; [main] is the driver from its first log record on.  A run of
    [script] is the set-up followed by a run of [main] (lemma
    [script_main]). *)

From Stdlib Require Import String Ascii List ZArith QArith Bool Lia.
From Stdlib Require Import Sorted Permutation.
Import ListNotations.

Local Open Scope list_scope.
Local Open Scope string_scope.

(** ** Python built-ins used by the script *)

Module Py.

(** [len(l)] as a Python integer. *)
Definition len {A} (l : list A) : Z := Z.of_nat (length l).

(** The index normalisation of a slice bound: a negative bound counts from
    the end, and the result is clamped to [0, len]. *)
Definition clamp (n : nat) (i : Z) : nat :=
  let j := if (i <? 0)%Z then (i + Z.of_nat n)%Z else i in
  Nat.min (Z.to_nat j) n.

(** [l[:stop]] *)
Definition slice_to {A} (l : list A) (stop : Z) : list A :=
  firstn (clamp (length l) stop) l.

(** [l[start:]] *)
Definition slice_from {A} (l : list A) (start : Z) : list A :=
  skipn (clamp (length l) start) l.

(** [sorted(l, key=key)]: ascending and stable.  An element is inserted in
    front of the first element whose key is not smaller, so that elements
    with equal keys keep the order they had in [l]. *)
Section Sorted.
Context {A : Type} (key : A -> Z).

Fixpoint insert (x : A) (l : list A) : list A :=
  match l with
  | [] => [x]
  | y :: l' => if (key x <=? key y)%Z then x :: l else y :: insert x l'
  end.

Fixpoint sorted (l : list A) : list A :=
  match l with
  | [] => []
  | x :: l' => insert x (sorted l')
  end.
End Sorted.

(** [next((x for x in l if p(x)), None)] *)
Definition next_or_none {A} (p : A -> bool) (l : list A) : option A :=
  find p l.

End Py.

(** ** Paths

    A path is a string; its components are separated by ["/"]. *)

Module Path.

Definition is_sep (c : ascii) : bool := (c =? "/")%char.

Fixpoint has_sep (s : string) : bool :=
  match s with
  | EmptyString => false
  | String c r => is_sep c || has_sep r
  end.

(** [os.path.basename(p)], which is also [Path(p).name] for the paths that
    [iterdir] yields: what follows the last separator. *)
Fixpoint basename (s : string) : string :=
  match s with
  | EmptyString => EmptyString
  | String c r => if has_sep s then basename r else s
  end.

(** What comes before the base name, the last separator included. *)
Fixpoint dirname_sep (s : string) : string :=
  match s with
  | EmptyString => EmptyString
  | String c r => if has_sep s then String c (dirname_sep r) else EmptyString
  end.

(** [p] is an entry of the directory [d]. *)
Definition child_of (d p : string) : bool :=
  (dirname_sep p =? d ++ "/") && negb (basename p =? "").

Definition starts_with_sep (s : string) : bool :=
  match s with
  | EmptyString => false
  | String c _ => is_sep c
  end.

Fixpoint ends_with_sep (s : string) : bool :=
  match s with
  | EmptyString => false
  | String c EmptyString => is_sep c
  | String _ r => ends_with_sep r
  end.

(** [os.path.join(a, b)] *)
Definition join (a b : string) : string :=
  if starts_with_sep b then b
  else if (a =? "") || ends_with_sep a then a ++ b
  else a ++ "/" ++ b.

End Path.

(** ** Regular expressions

    The fragment of [re] the script's pattern is written in.  File names are
    strings of 8-bit characters; among those, the class [\d] (a Unicode
    decimal digit) holds exactly the characters ['0'] to ['9']. *)

Module Re.

Inductive regex : Type :=
| Eps
| Chr (c : ascii)
| Digit
| Cat (r1 r2 : regex)
| Rep (r : regex) (lo hi : nat).     (* r{lo,hi} *)

Definition is_digit (c : ascii) : bool :=
  let n := nat_of_ascii c in (48 <=? n)%nat && (n <=? 57)%nat.

(** [r{lo,hi}], greedy: the remainders after [lo] to [hi] repetitions of
    [step], the longest runs first. *)
Fixpoint rep (step : string -> list string) (lo hi : nat) (s : string)
  : list string :=
  match hi with
  | O => if (lo =? 0)%nat then [s] else []
  | S hi' =>
      (flat_map (rep step (Nat.pred lo) hi') (step s)
       ++ (if (lo =? 0)%nat then [s] else []))%list
  end.

(** All the ways [r] matches at the start of [s]: the list of what is left
    of [s] after each match, in the order a backtracking matcher tries
    them. *)
Fixpoint matches (r : regex) (s : string) : list string :=
  match r with
  | Eps => [s]
  | Chr c =>
      match s with
      | String d s' => if (c =? d)%char then [s'] else []
      | EmptyString => []
      end
  | Digit =>
      match s with
      | String d s' => if is_digit d then [s'] else []
      | EmptyString => []
      end
  | Cat r1 r2 => flat_map (matches r2) (matches r1 s)
  | Rep r lo hi => rep (matches r) lo hi s
  end.

(** [pattern.match(s)] is not [None]: the pattern matches at the start of
    [s]; what follows the match is not looked at. *)
Definition match_ (r : regex) (s : string) : bool :=
  match matches r s with
  | [] => false
  | _ :: _ => true
  end.

(** [pattern.fullmatch(s)] is not [None]. *)
Definition fullmatch (r : regex) (s : string) : bool :=
  existsb (fun rest => rest =? "") (matches r s).

(** A literal string; [re.escape] makes the user name match this way. *)
Fixpoint lit (s : string) : regex :=
  match s with
  | EmptyString => Eps
  | String c s' => Cat (Chr c) (lit s')
  end.

Definition digits (lo hi : nat) : regex := Rep Digit lo hi.

Fixpoint seq (rs : list regex) : regex :=
  match rs with
  | [] => Eps
  | r :: rs' => Cat r (seq rs')
  end.

End Re.

(** ** Data *)

(** The values of [--target]; argparse refuses any other. *)
Inductive target : Type := gdrive | s3.

(** The module-level configuration, as read from the environment.
    [MAX_BACKUP_FILES] and [BACKUP_CHECK_DELAY] are what [int(...)] returned:
    any integer. *)
Record Config : Type := {
  CPANEL_URL : string;
  CPANEL_USERNAME : string;
  CPANEL_API_TOKEN : string;
  AWS_PROFILE : string;
  S3_BUCKET_NAME : string;
  S3_BACKUP_KEY_PREFIX : string;
  MAX_BACKUP_FILES : Z;
  BACKUP_CHECK_DELAY : Z;
  BACKUP_DESTINATION_EMAIL : option string;
  GOOGLE_CREDENTIALS_FILE : string;
  GOOGLE_DRIVE_FOLDER_ID : string
}.

(** An entry of [response['Contents']] of [list_objects_v2]. *)
Record S3Object : Type := {
  Key : string;
  LastModified : Z
}.

(** An entry of [results['files']] of the Drive listing, with the fields the
    script asks for. *)
Record DriveFile : Type := {
  file_id : string;
  file_name : string;
  createdTime : Z
}.

(** A decoded JSON value, as far as the script looks into it.  A number that
    decodes to a [float] carries its exact value, or [None] for NaN and the
    infinities; [JCompound] is a list or an object. *)
Inductive json : Type :=
| JNull
| JBool (b : bool)
| JInt (z : Z)
| JFloat (v : option Q)
| JStr (s : string)
| JCompound.

(** What [response.json()] returns: a [dict], as the list of its items, or
    some other value. *)
Inductive body : Type :=
| Dict (items : list (string * json))
| NotADict.

(** The exceptions of the model.  [OSError] is an error of the operating
    system other than a missing path ([PermissionError], [IsADirectoryError],
    [FileExistsError], ...); [ExternalError] is whatever [requests], boto3 or
    the Drive client raise.  All of them are [Exception]s. *)
Inductive exn : Type :=
| TypeError
| ValueError
| OverflowError
| AttributeError
| FileNotFoundError
| OSError (msg : string)
| JSONDecodeError
| ExternalError (msg : string).

(** The loggers of the script: [getLogger] of [APP_NAME], of ['S3Handler']
    and of ['GDriveHandler']. *)
Inductive logger : Type := AppLogger | S3Logger | GDriveLogger.

Inductive level : Type := INFO | WARNING | ERROR.

(** The log records of the script, each with the values its f-string
    interpolates. *)
Inductive message : Type :=
| Starting
| TargetIs (t : target)
| InitializingFullBackup
| UnexpectedResponseCode (received : Z)
| UnexpectedStatus (received : option json)
| InitiatedFullBackup
| WaitingFor (seconds : Z)
| LookingForBackupFile (dir : string)
| NoBackupFileFound
| BackupFileIs (path : string)
| CannotUpload (path : option string)
| TryingToUpload (path : option string)
| Uploaded (what : option string)
| FailedToUpload (e : exn)
| UploadedPercent (percent : Z)
| UploadStatus (upload_status : bool)
| Purged (what : string)
| CleanedUp (path : option string)
| AllDone.

(** What the script does to the outside, in the order it does it. *)
Inductive event : Type :=
| Log (who : logger) (lvl : level) (m : message)
| HttpPost (url authorization : string) (email : option string)
    (homedir : string)
| Sleep (seconds : Z)
| S3Session (profile : string)
| S3UploadFile (path : option string) (bucket key : string)
| S3ListObjectsV2 (bucket prefix : string)
| S3DeleteObject (bucket key : string)
| GDriveBuild (credentials_file : string)
| GDriveFilesCreate (name parent mimetype : string)
| GDriveNextChunk
| GDriveFilesList (q orderBy : string)
| GDriveFilesDelete (fileId : string).

(** ** The environment

    The answers of the outside world.  A field of type [option string] is the
    error a call raises, [None] when it returns; a [sum] has the error on the
    left. *)
Record Env : Type := {
  (* os.getcwd(): the directory relative paths start from *)
  cwd : string;
  (* os.stat fails on a path that is listed: a symbolic link whose target is
     missing, or a path that may not be searched *)
  stat_fails : string -> bool;
  (* os.remove of a path that is listed: the directory is read-only, or the
     path is a directory *)
  os_remove_error : string -> option string;
  (* os.makedirs(path, exist_ok=True): the name is taken by a file, or the
     directory is not there and cannot be made *)
  makedirs_error : string -> option string;
  (* open(path, 'a'): the file cannot be written to, or cannot be made *)
  open_error : string -> option string;
  (* the root logger has a handler when the script starts *)
  root_has_handlers : bool;
  (* requests.post: the status code and the decoded body, [None] when
     [response.json()] raises *)
  post_result : string + (Z * option body);
  (* mimetypes.guess_type, first component *)
  guess_type : string -> option string;
  (* boto3.Session(...).client('s3') *)
  s3_session_error : option string;
  (* s3_client.upload_file *)
  s3_upload_error : option string;
  (* s3_client.list_objects_v2: [response['Contents']], [None] when the key
     is absent *)
  s3_list_result : string + option (list S3Object);
  (* s3_client.delete_object, by key *)
  s3_delete_error : string -> option string;
  (* Credentials.from_service_account_file and build *)
  gdrive_build_error : option string;
  (* MediaFileUpload(...) and files().create(...) *)
  gdrive_create_error : option string;
  (* request.next_chunk(): the statuses of the calls that return no response
     yet, then the last call, which raises or returns a status and the [id]
     of the response.  A status is the percentage the script logs. *)
  gdrive_chunks : list (option Z);
  gdrive_last_chunk : string + (option Z * option string);
  (* files().list(...).execute(): [results['files']] in the order the service
     returns them, [None] when the key is absent *)
  gdrive_list_result : string + option (list DriveFile);
  (* files().delete(fileId=...).execute(), by file id *)
  gdrive_delete_error : string -> option string
}.

(** ** The monad *)

(** The local file system: the paths that are listed in their directory, in
    the order the system enumerates them. *)
Definition FS : Type := list string.

Inductive result (A : Type) : Type :=
| Ok (a : A)
| Raise (e : exn).

Arguments Ok {A} a.
Arguments Raise {A} e.

(** A computation runs from a file system; it returns or raises, leaves a
    file system and has issued a list of events. *)
Definition M (A : Type) : Type := FS -> result A * FS * list event.

Definition ret {A} (a : A) : M A := fun d => (Ok a, d, []).

(** [evs] happened before the run [x]. *)
Definition after {A} (evs : list event) (x : result A * FS * list event)
  : result A * FS * list event :=
  let '(r, d, evs') := x in (r, d, (evs ++ evs')%list).

Definition bind {A B} (c : M A) (k : A -> M B) : M B :=
  fun d =>
    match c d with
    | (Ok a, d', evs) => after evs (k a d')
    | (Raise e, d', evs) => (Raise e, d', evs)
    end.

Definition raise {A} (e : exn) : M A := fun d => (Raise e, d, []).

(** [try: c except Exception as e: h(e)] *)
Definition try_except {A} (c : M A) (h : exn -> M A) : M A :=
  fun d =>
    match c d with
    | (Ok a, d', evs) => (Ok a, d', evs)
    | (Raise e, d', evs) => after evs (h e d')
    end.

Definition emit (e : event) : M unit := fun d => (Ok tt, d, [e]).

Declare Scope monad_scope.
Delimit Scope monad_scope with monad.
Notation "x <- c ;; k" := (bind c (fun x => k))
  (at level 61, c at next level, right associativity) : monad_scope.
Notation "c ;; k" := (bind c (fun _ => k))
  (at level 61, right associativity) : monad_scope.

Local Open Scope monad_scope.

(** [for x in l: body(x)] *)
Fixpoint for_each {A} (l : list A) (body : A -> M unit) : M unit :=
  match l with
  | [] => ret tt
  | x :: l' => body x ;; for_each l' body
  end.

(** An external call: it is recorded, then raises or returns. *)
Definition call (e : event) (err : option string) : M unit :=
  emit e ;;
  match err with
  | Some msg => raise (ExternalError msg)
  | None => ret tt
  end.

(** The greatest number of seconds whose nanoseconds fit a signed 64-bit
    integer: [(2^63 - 1) // 10^9]. *)
Definition PyTime_MAX_SECONDS : Z := 9223372036.

(** The file system in which [path] exists: a path that is not there is
    added. *)
Definition created (path : string) (d : FS) : FS :=
  if existsb (String.eqb path) d then d else (d ++ [path])%list.

Definition logger_eqb (a b : logger) : bool :=
  match a, b with
  | AppLogger, AppLogger | S3Logger, S3Logger
  | GDriveLogger, GDriveLogger => true
  | _, _ => false
  end.

(** The constants of the module. *)
Definition APP_NAME : string := "cPanelBackupPlus".
Definition LOGS_DIRECTORY : string := "logs".

(** ** The script *)

Section Script.

Variable cfg : Config.
Variable env : Env.

(** *** Library calls *)

(** [os.path.exists(p)] for a string: [os.stat(p)] succeeds.  The path is
    listed and can be reached; a dangling symbolic link is listed and does
    not exist. *)
Definition path_exists (p : string) (d : FS) : bool :=
  existsb (String.eqb p) d && negb (stat_fails env p).

(** [os.path.exists(p)]; [None] is not a path. *)
Definition os_path_exists (p : option string) : M bool :=
  match p with
  | None => raise TypeError
  | Some p => fun d => (Ok (path_exists p d), d, [])
  end.

(** [os.path.basename(p)] *)
Definition os_path_basename (p : option string) : M string :=
  match p with
  | None => raise TypeError
  | Some p => ret (Path.basename p)
  end.

(** [os.remove(p)]: the path goes, or the call raises and the path stays. *)
Definition os_remove (p : option string) : M unit :=
  match p with
  | None => raise TypeError
  | Some p =>
      fun d =>
        if existsb (String.eqb p) d then
          match os_remove_error env p with
          | Some msg => (Raise (OSError msg), d, [])
          | None => (Ok tt, filter (fun q => negb (p =? q)) d, [])
          end
        else (Raise FileNotFoundError, d, [])
  end.

(** [Path(dir).iterdir()] *)
Definition iterdir (dir : string) : M (list string) :=
  fun d =>
    if existsb (String.eqb dir) d
    then (Ok (filter (Path.child_of dir) d), d, [])
    else (Raise FileNotFoundError, d, []).

(** [time.sleep(n)] for an integer: the delay is first converted to
    nanoseconds in 64 bits, which overflows beyond [PyTime_MAX_SECONDS]
    seconds either way; only then is a negative delay refused. *)
Definition time_sleep (n : Z) : M unit :=
  if (n <? - PyTime_MAX_SECONDS)%Z || (PyTime_MAX_SECONDS <? n)%Z then
    raise OverflowError
  else if (n <? 0)%Z then raise ValueError
  else emit (Sleep n).

(** [mimetypes.guess_type(p)[0]] *)
Definition mimetypes_guess_type (p : option string) : M (option string) :=
  match p with
  | None => raise TypeError
  | Some p => ret (guess_type env p)
  end.

(** [items.get(k)] *)
Fixpoint dict_get (items : list (string * json)) (k : string) : option json :=
  match items with
  | [] => None
  | (k', v) :: items' => if k' =? k then Some v else dict_get items' k
  end.

(** [v != 1] for the value of [api_response.get("status")] *)
Definition ne_1 (v : option json) : bool :=
  match v with
  | Some (JInt z) => negb (z =? 1)%Z
  | Some (JBool b) => negb b
  | Some (JFloat (Some q)) => negb (Qeq_bool q 1)
  | _ => true
  end.

(** [os.makedirs(name, exist_ok=True)] for a relative name of one
    component: the directory exists from now on. *)
Definition os_makedirs (name : string) : M unit :=
  fun d =>
    let path := Path.join (cwd env) name in
    match makedirs_error env path with
    | Some msg => (Raise (OSError msg), d, [])
    | None => (Ok tt, created path d, [])
    end.

(** [RotatingFileHandler(filename=..., ...)]: the handler keeps the absolute
    path of the file and opens it for appending at once, which makes the
    file when it is not there. *)
Definition RotatingFileHandler (filename : string) : M unit :=
  fun d =>
    let baseFilename := Path.join (cwd env) filename in
    match open_error env baseFilename with
    | Some msg => (Raise (OSError msg), d, [])
    | None => (Ok tt, created baseFilename d, [])
    end.

(** *** LogHandler *)

(** [LogHandler()]: the constructor makes the directory of the logs; its
    result here is [self.log_file]. *)
Definition LogHandler : M string :=
  os_makedirs LOGS_DIRECTORY ;;
  ret (Path.join LOGS_DIRECTORY (APP_NAME ++ ".log")).

(** [logger.hasHandlers()], when [configured] are the loggers the script
    has given handlers to: the logger has a handler, or the root logger,
    its parent, has one. *)
Definition hasHandlers (configured : list logger) (name : logger) : bool :=
  existsb (logger_eqb name) configured || root_has_handlers env.

(** [get_logger(name)] of a [LogHandler] whose log file is [log_file].  A
    logger without handlers gets a console handler and a handler on the log
    file; the result is the loggers with handlers afterwards. *)
Definition get_logger (log_file : string) (name : logger)
  (configured : list logger) : M (list logger) :=
  if negb (hasHandlers configured name) then
    RotatingFileHandler log_file ;;
    ret (name :: configured)
  else ret configured.

(** [LogHandler().get_logger(name)] *)
Definition LogHandler_get_logger (name : logger) (configured : list logger)
  : M (list logger) :=
  log_file <- LogHandler ;;
  get_logger log_file name configured.

(** [logger.info(...)], [logger.warning(...)], [logger.error(...)]: the
    record goes to the console and to the log file.  Errors of the handlers
    are swallowed by [logging], so the call returns; what the file handler
    does inside the directory of the logs when it rotates the file is not
    followed. *)
Definition log (who : logger) (lvl : level) (m : message) : M unit :=
  emit (Log who lvl m).

(** *** CloudStorageHandler *)

Record CloudStorageHandler : Type := {
  upload : option string -> M bool;
  purge : M unit
}.

(** *** S3Handler *)

Definition S3Handler_purge : M unit :=
  emit (S3ListObjectsV2 (S3_BUCKET_NAME cfg) (S3_BACKUP_KEY_PREFIX cfg)) ;;
  match s3_list_result env with
  | inl msg => raise (ExternalError msg)
  | inr None => ret tt
  | inr (Some files) =>
      let existing_files := Py.sorted LastModified files in
      if (Py.len existing_files >? MAX_BACKUP_FILES cfg)%Z then
        let files_to_delete :=
          Py.slice_to existing_files
            (Py.len existing_files - MAX_BACKUP_FILES cfg)%Z in
        for_each files_to_delete (fun file =>
          let file_key := Key file in
          call (S3DeleteObject (S3_BUCKET_NAME cfg) file_key)
               (s3_delete_error env file_key) ;;
          log S3Logger INFO (Purged file_key))
      else ret tt
  end.

Definition S3Handler_upload (filepath : option string) : M bool :=
  file_exists <- os_path_exists filepath ;;
  if negb file_exists then
    log S3Logger WARNING (CannotUpload filepath) ;;
    ret false
  else
    log S3Logger INFO (TryingToUpload filepath) ;;
    upload_status <-
      try_except
        (name <- os_path_basename filepath ;;
         let s3_backup_key := S3_BACKUP_KEY_PREFIX cfg ++ name in
         call (S3UploadFile filepath (S3_BUCKET_NAME cfg) s3_backup_key)
              (s3_upload_error env) ;;
         log S3Logger INFO (Uploaded (Some s3_backup_key)) ;;
         ret true)
        (fun e =>
           log S3Logger WARNING (FailedToUpload e) ;;
           ret false) ;;
    log S3Logger INFO (UploadStatus upload_status) ;;
    ret upload_status.

(** [S3Handler()] once its logger is there (lines 122-123) *)
Definition S3Handler : M CloudStorageHandler :=
  call (S3Session (AWS_PROFILE cfg)) (s3_session_error env) ;;
  ret {| upload := S3Handler_upload; purge := S3Handler_purge |}.

(** [S3Handler()], from its first line *)
Definition S3Handler_init (configured : list logger)
  : M CloudStorageHandler :=
  LogHandler_get_logger S3Logger configured ;;
  S3Handler.

(** *** GDriveHandler *)

(** [while response is None: status, response = request.next_chunk(); ...],
    over the calls that return no response yet; the upload session is finite. *)
Fixpoint next_chunks (statuses : list (option Z)) : M (option string) :=
  match statuses with
  | status :: statuses' =>
      emit GDriveNextChunk ;;
      match status with
      | Some percent => log GDriveLogger INFO (UploadedPercent percent)
      | None => ret tt
      end ;;
      next_chunks statuses'
  | [] =>
      emit GDriveNextChunk ;;
      match gdrive_last_chunk env with
      | inl msg => raise (ExternalError msg)
      | inr (status, response_id) =>
          match status with
          | Some percent => log GDriveLogger INFO (UploadedPercent percent)
          | None => ret tt
          end ;;
          ret response_id
      end
  end.

Definition GDriveHandler_upload (filepath : option string) : M bool :=
  file_exists <- os_path_exists filepath ;;
  if negb file_exists then
    log GDriveLogger WARNING (CannotUpload filepath) ;;
    ret false
  else
    log GDriveLogger INFO (TryingToUpload filepath) ;;
    upload_status <-
      try_except
        (name <- os_path_basename filepath ;;
         guessed <- mimetypes_guess_type filepath ;;
         let mime_type :=
           match guessed with
           | Some t => t
           | None => "application/octet-stream"
           end in
         call (GDriveFilesCreate name (GOOGLE_DRIVE_FOLDER_ID cfg) mime_type)
              (gdrive_create_error env) ;;
         response_id <- next_chunks (gdrive_chunks env) ;;
         log GDriveLogger INFO (Uploaded response_id) ;;
         ret true)
        (fun e =>
           log GDriveLogger WARNING (FailedToUpload e) ;;
           ret false) ;;
    log GDriveLogger INFO (UploadStatus upload_status) ;;
    ret upload_status.

Definition GDriveHandler_purge : M unit :=
  let query :=
    "'" ++ GOOGLE_DRIVE_FOLDER_ID cfg ++ "' in parents and trashed = false" in
  emit (GDriveFilesList query "createdTime desc") ;;
  match gdrive_list_result env with
  | inl msg => raise (ExternalError msg)
  | inr results =>
      let existing_files :=
        match results with Some files => files | None => [] end in
      if (Py.len existing_files >? MAX_BACKUP_FILES cfg)%Z then
        for_each (Py.slice_from existing_files (MAX_BACKUP_FILES cfg))
          (fun file =>
             call (GDriveFilesDelete (file_id file))
                  (gdrive_delete_error env (file_id file)) ;;
             log GDriveLogger INFO (Purged (file_name file)))
      else ret tt
  end.

(** [GDriveHandler()] once its logger is there (lines 172-173) *)
Definition GDriveHandler : M CloudStorageHandler :=
  call (GDriveBuild (GOOGLE_CREDENTIALS_FILE cfg)) (gdrive_build_error env) ;;
  ret {| upload := GDriveHandler_upload; purge := GDriveHandler_purge |}.

(** [GDriveHandler()], from its first line *)
Definition GDriveHandler_init (configured : list logger)
  : M CloudStorageHandler :=
  LogHandler_get_logger GDriveLogger configured ;;
  GDriveHandler.

(** *** CpanelHandler *)

(** [CpanelHandler()] *)
Definition CpanelHandler (configured : list logger) : M (list logger) :=
  LogHandler_get_logger AppLogger configured.

(** [backup-\d{1,2}\.\d{1,2}\.\d{4}_\d{2}-\d{2}-\d{2}_<user>\.tar\.gz] *)
Definition regex_pattern : Re.regex :=
  Re.seq [ Re.lit "backup-"; Re.digits 1 2; Re.lit "."; Re.digits 1 2;
           Re.lit "."; Re.digits 4 4; Re.lit "_"; Re.digits 2 2; Re.lit "-";
           Re.digits 2 2; Re.lit "-"; Re.digits 2 2; Re.lit "_";
           Re.lit (CPANEL_USERNAME cfg); Re.lit ".tar.gz" ].

(** [Path(f"/home/{CPANEL_USERNAME}/")], for a user name that is one path
    component. *)
Definition backup_directory : string := "/home/" ++ CPANEL_USERNAME cfg.

Definition get_backup_file : M (option string) :=
  log AppLogger INFO (LookingForBackupFile backup_directory) ;;
  entries <- iterdir backup_directory ;;
  ret (Py.next_or_none
         (fun f => Re.match_ regex_pattern (Path.basename f)) entries).

Definition initiate_full_backup : M unit :=
  log AppLogger INFO InitializingFullBackup ;;
  emit (HttpPost (CPANEL_URL cfg ++ "/execute/Backup/fullbackup_to_homedir")
          ("cpanel " ++ CPANEL_USERNAME cfg ++ ":" ++ CPANEL_API_TOKEN cfg)
          (BACKUP_DESTINATION_EMAIL cfg) "include") ;;
  match post_result env with
  | inl msg => raise (ExternalError msg)
  | inr (status_code, decoded) =>
      if negb (status_code =? 200)%Z then
        log AppLogger ERROR (UnexpectedResponseCode status_code)
      else
        match decoded with
        | None => raise JSONDecodeError
        | Some NotADict => raise AttributeError
        | Some (Dict api_response) =>
            let api_status := dict_get api_response "status" in
            if ne_1 api_status then
              log AppLogger ERROR (UnexpectedStatus api_status)
            else
              log AppLogger INFO InitiatedFullBackup
        end
  end.

Definition run_backup : M (option string) :=
  initiate_full_backup ;;
  log AppLogger INFO (WaitingFor (BACKUP_CHECK_DELAY cfg)) ;;
  time_sleep (BACKUP_CHECK_DELAY cfg) ;;
  backup_filename <- get_backup_file ;;
  match backup_filename with
  | None =>
      log AppLogger ERROR NoBackupFileFound ;;
      ret None
  | Some f =>
      log AppLogger INFO (BackupFileIs f) ;;
      ret (Some f)
  end.

(** *** Driver code *)

(** The driver from its first log record on (lines 305-329), with the
    loggers in place.  It returns the final values of [backup_filename] and
    [upload_status]. *)
Definition main (t : target) : M (option string * bool) :=
  log AppLogger INFO Starting ;;
  log AppLogger INFO (TargetIs t) ;;
  backup_filename <- run_backup ;;
  upload_status <-
    match t with
    | gdrive =>
        gdrive <- GDriveHandler ;;
        upload_status <- upload gdrive backup_filename ;;
        purge gdrive ;;
        ret upload_status
    | s3 =>
        s3 <- S3Handler ;;
        upload_status <- upload s3 backup_filename ;;
        purge s3 ;;
        ret upload_status
    end ;;
  (if (upload_status : bool) then
     os_remove backup_filename ;;
     log AppLogger INFO (CleanedUp backup_filename)
   else ret tt) ;;
  log AppLogger INFO AllDone ;;
  ret (backup_filename, upload_status).

(** The whole driver (lines 304-329): the same, with every
    [LogHandler().get_logger(...)] where the code has it, in the driver and
    in the constructors of the handlers. *)
Definition script (t : target) : M (option string * bool) :=
  configured <- LogHandler_get_logger AppLogger [] ;;
  log AppLogger INFO Starting ;;
  log AppLogger INFO (TargetIs t) ;;
  configured <- CpanelHandler configured ;;
  backup_filename <- run_backup ;;
  upload_status <-
    match t with
    | gdrive =>
        gdrive <- GDriveHandler_init configured ;;
        upload_status <- upload gdrive backup_filename ;;
        purge gdrive ;;
        ret upload_status
    | s3 =>
        s3 <- S3Handler_init configured ;;
        upload_status <- upload s3 backup_filename ;;
        purge s3 ;;
        ret upload_status
    end ;;
  (if (upload_status : bool) then
     os_remove backup_filename ;;
     log AppLogger INFO (CleanedUp backup_filename)
   else ret tt) ;;
  log AppLogger INFO AllDone ;;
  ret (backup_filename, upload_status).

End Script.

(** ** Definitions the statements are written with *)

(** The handler the driver makes for a target. *)
Definition new_handler (cfg : Config) (env : Env) (t : target)
  : M CloudStorageHandler :=
  match t with
  | gdrive => GDriveHandler cfg env
  | s3 => S3Handler cfg env
  end.

(** The driver up to the point where [upload] has returned: the backup file
    name and the upload status. *)
Definition upto_upload (cfg : Config) (env : Env) (t : target)
  : M (option string * bool) :=
  log AppLogger INFO Starting ;;
  log AppLogger INFO (TargetIs t) ;;
  backup_filename <- run_backup cfg env ;;
  handler <- new_handler cfg env t ;;
  upload_status <- upload handler backup_filename ;;
  ret (backup_filename, upload_status).

(** [purge] of the target's handler. *)
Definition purge_of (cfg : Config) (env : Env) (t : target) : M unit :=
  match t with
  | gdrive => GDriveHandler_purge cfg env
  | s3 => S3Handler_purge cfg env
  end.

(** The end of the driver, from the clean-up on. *)
Definition cleanup (env : Env) (backup_filename : option string)
  (upload_status : bool) : M (option string * bool) :=
  (if upload_status then
     os_remove env backup_filename ;;
     log AppLogger INFO (CleanedUp backup_filename)
   else ret tt) ;;
  log AppLogger INFO AllDone ;;
  ret (backup_filename, upload_status).

(** The listing call a purge starts with. *)
Definition listing_call (cfg : Config) (t : target) : event :=
  match t with
  | gdrive =>
      GDriveFilesList
        ("'" ++ GOOGLE_DRIVE_FOLDER_ID cfg
             ++ "' in parents and trashed = false")
        "createdTime desc"
  | s3 => S3ListObjectsV2 (S3_BUCKET_NAME cfg) (S3_BACKUP_KEY_PREFIX cfg)
  end.

(** The keys and file ids of the delete calls among [evs], in order. *)
Fixpoint deletions (evs : list event) : list string :=
  match evs with
  | [] => []
  | S3DeleteObject _ key :: evs' => key :: deletions evs'
  | GDriveFilesDelete fileId :: evs' => fileId :: deletions evs'
  | _ :: evs' => deletions evs'
  end.

(** A call to the destination: a listing, an upload or a deletion. *)
Definition is_destination_call (e : event) : bool :=
  match e with
  | S3UploadFile _ _ _ | S3ListObjectsV2 _ _ | S3DeleteObject _ _
  | GDriveFilesCreate _ _ _ | GDriveNextChunk | GDriveFilesList _ _
  | GDriveFilesDelete _ => true
  | _ => false
  end.

(** The entries [S3Handler.purge] deletes when the listing holds [files]. *)
Definition S3_files_to_delete (max_kept : Z) (files : list S3Object)
  : list S3Object :=
  let existing_files := Py.sorted LastModified files in
  if (Py.len existing_files >? max_kept)%Z
  then Py.slice_to existing_files (Py.len existing_files - max_kept)%Z
  else [].

(** The entries [GDriveHandler.purge] deletes when the listing holds
    [existing_files]. *)
Definition GDrive_files_to_delete (max_kept : Z)
  (existing_files : list DriveFile) : list DriveFile :=
  if (Py.len existing_files >? max_kept)%Z
  then Py.slice_from existing_files max_kept
  else [].

(** The body of the deletion loops. *)
Definition S3_delete (cfg : Config) (env : Env) (file : S3Object) : M unit :=
  call (S3DeleteObject (S3_BUCKET_NAME cfg) (Key file))
       (s3_delete_error env (Key file)) ;;
  log S3Logger INFO (Purged (Key file)).

Definition GDrive_delete (env : Env) (file : DriveFile) : M unit :=
  call (GDriveFilesDelete (file_id file))
       (gdrive_delete_error env (file_id file)) ;;
  log GDriveLogger INFO (Purged (file_name file)).

(** The environment with another answer of the cPanel API. *)
Definition with_post (env : Env) (r : string + (Z * option body)) : Env :=
  {| cwd := cwd env;
     stat_fails := stat_fails env;
     os_remove_error := os_remove_error env;
     makedirs_error := makedirs_error env;
     open_error := open_error env;
     root_has_handlers := root_has_handlers env;
     post_result := r;
     guess_type := guess_type env;
     s3_session_error := s3_session_error env;
     s3_upload_error := s3_upload_error env;
     s3_list_result := s3_list_result env;
     s3_delete_error := s3_delete_error env;
     gdrive_build_error := gdrive_build_error env;
     gdrive_create_error := gdrive_create_error env;
     gdrive_chunks := gdrive_chunks env;
     gdrive_last_chunk := gdrive_last_chunk env;
     gdrive_list_result := gdrive_list_result env;
     gdrive_delete_error := gdrive_delete_error env |}.

(** The log record [initiate_full_backup] ends with when the API answers
    [(status_code, decoded)] and the answer is not the accepted one: a status
    code other than 200, or a decoded object whose ["status"] is not 1. *)
Definition rejection (status_code : Z) (decoded : option body)
  : option message :=
  if negb (status_code =? 200)%Z then
    Some (UnexpectedResponseCode status_code)
  else
    match decoded with
    | Some (Dict api_response) =>
        if ne_1 (dict_get api_response "status")
        then Some (UnexpectedStatus (dict_get api_response "status"))
        else None
    | _ => None
    end.

(** An accepted answer. *)
Definition accepted_answer : Z * option body :=
  (200%Z, Some (Dict [("status", JInt 1)])).

(** [l] runs from the oldest to the newest, or from the newest to the
    oldest, by [key]. *)
Definition oldest_first {A} (key : A -> Z) (l : list A) : Prop :=
  Sorted (fun a b => (key a <= key b)%Z) l.

Definition newest_first {A} (key : A -> Z) (l : list A) : Prop :=
  Sorted (fun a b => (key b <= key a)%Z) l.

(** The retention contract: [existing] is the listing from the oldest to the
    newest and [selected] the entries to delete in that order.  [older] is
    the comparison between the time of a deleted entry and the time of a
    retained one. *)
Definition retention_contract {A} (older : Z -> Z -> Prop) (key : A -> Z)
  (existing : list A) (max_kept : Z) (selected : list A) : Prop :=
  ((Py.len existing <= max_kept)%Z -> selected = []) /\
  ((Py.len existing > max_kept)%Z ->
   Py.len selected = (Py.len existing - max_kept)%Z /\
   exists retained,
     existing = (selected ++ retained)%list /\
     forall d r, In d selected -> In r retained -> older (key d) (key r)).

(** [upload] of the target's handler. *)
Definition upload_of (cfg : Config) (env : Env) (t : target)
  : option string -> M bool :=
  match t with
  | gdrive => GDriveHandler_upload cfg env
  | s3 => S3Handler_upload cfg env
  end.

(** A computation that leaves the local file system as it found it. *)
Definition keeps_fs {A} (c : M A) : Prop :=
  forall d r d' evs, c d = (r, d', evs) -> d' = d.

(** The file system without [f]. *)
Definition removed (f : string) (d : FS) : FS :=
  filter (fun q => negb (f =? q)) d.

(** The driver after [initiate_full_backup] has returned. *)
Definition after_trigger (cfg : Config) (env : Env) (t : target)
  : M (option string * bool) :=
  backup_filename <-
    (log AppLogger INFO (WaitingFor (BACKUP_CHECK_DELAY cfg)) ;;
     time_sleep (BACKUP_CHECK_DELAY cfg) ;;
     backup_filename <- get_backup_file cfg ;;
     match backup_filename with
     | None =>
         log AppLogger ERROR NoBackupFileFound ;;
         ret None
     | Some f =>
         log AppLogger INFO (BackupFileIs f) ;;
         ret (Some f)
     end) ;;
  upload_status <-
    match t with
    | gdrive =>
        gdrive <- GDriveHandler cfg env ;;
        upload_status <- upload gdrive backup_filename ;;
        purge gdrive ;;
        ret upload_status
    | s3 =>
        s3 <- S3Handler cfg env ;;
        upload_status <- upload s3 backup_filename ;;
        purge s3 ;;
        ret upload_status
    end ;;
  (if (upload_status : bool) then
     os_remove env backup_filename ;;
     log AppLogger INFO (CleanedUp backup_filename)
   else ret tt) ;;
  log AppLogger INFO AllDone ;;
  ret (backup_filename, upload_status).

(** The events up to the answer of the cPanel API. *)
Definition trigger_events (cfg : Config) (t : target) : list event :=
  [ Log AppLogger INFO Starting;
    Log AppLogger INFO (TargetIs t);
    Log AppLogger INFO InitializingFullBackup;
    HttpPost (CPANEL_URL cfg ++ "/execute/Backup/fullbackup_to_homedir")
      ("cpanel " ++ CPANEL_USERNAME cfg ++ ":" ++ CPANEL_API_TOKEN cfg)
      (BACKUP_DESTINATION_EMAIL cfg) "include" ].

(** An event of a phase that follows the trigger: the wait, or a call to
    the destination. *)
Definition is_later_phase (e : event) : bool :=
  match e with
  | Sleep _ => true
  | _ => is_destination_call e
  end.

(** A matcher for which a match at the start of [s] is a match at the start
    of [s ++ t], with [t] added to what is left. *)
Definition extends_by (t : string) (step : string -> list string) : Prop :=
  forall s rest, In rest (step s) -> In (rest ++ t) (step (s ++ t)).

(** The events of a deletion that goes well. *)
Definition S3_deleted (cfg : Config) (file : S3Object) : list event :=
  [ S3DeleteObject (S3_BUCKET_NAME cfg) (Key file);
    Log S3Logger INFO (Purged (Key file)) ].

Definition GDrive_deleted (file : DriveFile) : list event :=
  [ GDriveFilesDelete (file_id file);
    Log GDriveLogger INFO (Purged (file_name file)) ].

(** ** A test bench

    One account, its home directory with and without a backup archive, and
    answers of the outside world to vary. *)

Module Bench.

Definition config (max_backup_files : Z) : Config :=
  {| CPANEL_URL := "https://example.com:2083";
     CPANEL_USERNAME := "myuser";
     CPANEL_API_TOKEN := "TOKEN";
     AWS_PROFILE := "default";
     S3_BUCKET_NAME := "bucket";
     S3_BACKUP_KEY_PREFIX := "cpanel/";
     MAX_BACKUP_FILES := max_backup_files;
     BACKUP_CHECK_DELAY := 60;
     BACKUP_DESTINATION_EMAIL := None;
     GOOGLE_CREDENTIALS_FILE := "credentials.json";
     GOOGLE_DRIVE_FOLDER_ID := "FOLDER" |}.

Definition archive : string :=
  "/home/myuser/backup-8.17.2024_17-46-55_myuser.tar.gz".

Definition home_with_archive : FS :=
  ["/home/myuser"; "/home/myuser/.bashrc"; archive].

Definition home_without_archive : FS :=
  ["/home/myuser"; "/home/myuser/.bashrc"].

(** Two objects in the bucket, the newer one listed first. *)
Definition bucket : list S3Object :=
  [ {| Key := "cpanel/new.tar.gz"; LastModified := 20 |};
    {| Key := "cpanel/old.tar.gz"; LastModified := 10 |} ].

(** Two objects written at the same time. *)
Definition twins : list S3Object :=
  [ {| Key := "cpanel/a.tar.gz"; LastModified := 5 |};
    {| Key := "cpanel/b.tar.gz"; LastModified := 5 |} ].

(** Three files in the folder, as Drive lists them: the newest first. *)
Definition folder : list DriveFile :=
  [ {| file_id := "id3"; file_name := "c.tar.gz"; createdTime := 30 |};
    {| file_id := "id2"; file_name := "b.tar.gz"; createdTime := 20 |};
    {| file_id := "id1"; file_name := "a.tar.gz"; createdTime := 10 |} ].

(** The outside world: the answer of the cPanel API, the error of the S3
    upload if any, and the key or file id whose deletion fails if any.
    Everything else goes well. *)
Definition world (post : string + (Z * option body))
  (upload_error : option string) (undeletable : option string) : Env :=
  let delete_error k :=
    match undeletable with
    | Some k' => if k =? k' then Some "AccessDenied" else None
    | None => None
    end in
  {| cwd := "/opt/cpanel-backup";
     stat_fails := fun _ => false;
     os_remove_error := fun _ => None;
     makedirs_error := fun _ => None;
     open_error := fun _ => None;
     root_has_handlers := false;
     post_result := post;
     guess_type := fun _ => Some "application/x-tar";
     s3_session_error := None;
     s3_upload_error := upload_error;
     s3_list_result := inr (Some bucket);
     s3_delete_error := delete_error;
     gdrive_build_error := None;
     gdrive_create_error := None;
     gdrive_chunks := [Some 50%Z];
     gdrive_last_chunk := inr (None, Some "id4");
     gdrive_list_result := inr (Some folder);
     gdrive_delete_error := delete_error |}.

(** The world in which everything goes well, with its answers about the
    local paths to vary: the listed paths that [os.stat] cannot reach, the
    error of [os.remove] and the error of [os.makedirs], if any. *)
Definition local_world (unreachable : string -> bool)
  (remove_error makedirs_error : option string) : Env :=
  {| cwd := "/opt/cpanel-backup";
     stat_fails := unreachable;
     os_remove_error := fun _ => remove_error;
     makedirs_error := fun _ => makedirs_error;
     open_error := fun _ => None;
     root_has_handlers := false;
     post_result := inr accepted_answer;
     guess_type := fun _ => Some "application/x-tar";
     s3_session_error := None;
     s3_upload_error := None;
     s3_list_result := inr (Some bucket);
     s3_delete_error := fun _ => None;
     gdrive_build_error := None;
     gdrive_create_error := None;
     gdrive_chunks := [Some 50%Z];
     gdrive_last_chunk := inr (None, Some "id4");
     gdrive_list_result := inr (Some folder);
     gdrive_delete_error := fun _ => None |}.

(** The home directory is read-only: nothing can be removed from it. *)
Definition read_only_home : Env :=
  local_world (fun _ => false) (Some "PermissionError") None.

(** The archive is a symbolic link whose target is missing. *)
Definition dangling_archive : Env :=
  local_world (String.eqb archive) None None.

(** The name [logs] is taken by a file in the working directory. *)
Definition logs_is_a_file : Env :=
  local_world (fun _ => false) None (Some "FileExistsError").

End Bench.

(** ** The claims as they are stated, where the code differs *)

(** C1 as stated, for the run of [t] from [d]: when [upload] has
    returned failure, the run makes no listing call and no deletion. *)
Definition no_purge_after_failed_upload (cfg : Config) (env : Env)
  (t : target) (d : FS) : Prop :=
  forall bf d2 evs r d' all,
    upto_upload cfg env t d = (Ok (bf, false), d2, evs) ->
    main cfg env t d = (r, d', all) ->
    ~ In (listing_call cfg t) all /\ deletions all = [].

(** C2 as stated, for the run of [t] from [d]: when the answer of the API is
    not the accepted one, nothing of a later phase happens. *)
Definition trigger_failure_stops_run (cfg : Config) (env : Env) (t : target)
  (d : FS) : Prop :=
  forall status_code decoded m r d' all,
    post_result env = inr (status_code, decoded) ->
    rejection status_code decoded = Some m ->
    main cfg env t d = (r, d', all) ->
    existsb is_later_phase all = false.

(** C4 as stated: the retention contract with "strictly older". *)
Definition strict_retention_contract {A} (key : A -> Z) (existing : list A)
  (max_kept : Z) (selected : list A) : Prop :=
  retention_contract Z.lt key existing max_kept selected.

(** C5 as stated, for the run of [t] from [d]: with a retention count of
    zero or below, the run stops with an error before it does anything. *)
Definition rejected_at_startup (cfg : Config) (env : Env) (t : target)
  (d : FS) : Prop :=
  (MAX_BACKUP_FILES cfg <= 0)%Z ->
  exists e, main cfg env t d = (Raise e, d, []).

(** C6 as stated, for the run of [t] from [d]: when [upload] has returned
    success, the backup file is gone after the run. *)
Definition local_file_removed_after_upload (cfg : Config) (env : Env)
  (t : target) (d : FS) : Prop :=
  forall f d2 evs r d' all,
    upto_upload cfg env t d = (Ok (Some f, true), d2, evs) ->
    main cfg env t d = (r, d', all) ->
    ~ In f d'.

(** C8 as stated, for the S3 purge from [d]: the purge returns, and every
    selected entry has had its delete call. *)
Definition purge_survives_failed_deletion (cfg : Config) (env : Env)
  (d : FS) : Prop :=
  forall files,
    s3_list_result env = inr (Some files) ->
    exists d' evs,
      S3Handler_purge cfg env d = (Ok tt, d', evs) /\
      deletions evs
      = map Key (S3_files_to_delete (MAX_BACKUP_FILES cfg) files).

(** C9 as stated, for a Drive listing: the entries are deleted from the
    oldest to the newest. *)
Definition deleted_oldest_first (max_kept : Z) (files : list DriveFile)
  : Prop :=
  oldest_first createdTime (GDrive_files_to_delete max_kept files).

(** ** Definitions for the properties of the parts *)

(** A computation all of whose events satisfy [P]. *)
Definition emits_only {A} (P : event -> bool) (c : M A) : Prop :=
  forall d r d' evs, c d = (r, d', evs) -> forallb P evs = true.

(** The number of events of [evs] that satisfy [P]. *)
Definition count (P : event -> bool) (evs : list event) : nat :=
  length (filter P evs).

Definition is_post (e : event) : bool :=
  match e with HttpPost _ _ _ _ => true | _ => false end.

Definition is_sleep (e : event) : bool :=
  match e with Sleep _ => true | _ => false end.

Definition is_log (e : event) : bool :=
  match e with Log _ _ _ => true | _ => false end.

Definition is_listing (e : event) : bool :=
  match e with
  | S3ListObjectsV2 _ _ | GDriveFilesList _ _ => true
  | _ => false
  end.

Definition is_deletion (e : event) : bool :=
  match e with
  | S3DeleteObject _ _ | GDriveFilesDelete _ => true
  | _ => false
  end.

Definition is_s3_upload_file (e : event) : bool :=
  match e with S3UploadFile _ _ _ => true | _ => false end.

Definition is_next_chunk (e : event) : bool :=
  match e with GDriveNextChunk => true | _ => false end.

(** An event of a purge: its listing call or a deletion. *)
Definition is_purge_call (e : event) : bool := is_listing e || is_deletion e.

(** An event of an upload: a call that sends the file. *)
Definition is_upload_call (e : event) : bool :=
  match e with
  | S3UploadFile _ _ _ | GDriveFilesCreate _ _ _ | GDriveNextChunk => true
  | _ => false
  end.



(** The test the locator applies to a path. *)
Definition is_backup_file (cfg : Config) (f : string) : bool :=
  Re.match_ (regex_pattern cfg) (Path.basename f).

(** [l1] is the start of [l2]. *)
Definition prefix_of {A} (l1 l2 : list A) : Prop :=
  exists rest, l2 = (l1 ++ rest)%list.

(** The least and the greatest number of characters a match of [r] takes. *)
Fixpoint min_len (r : Re.regex) : nat :=
  match r with
  | Re.Eps => 0
  | Re.Chr _ | Re.Digit => 1
  | Re.Cat r1 r2 => min_len r1 + min_len r2
  | Re.Rep r lo _ => lo * min_len r
  end.

Fixpoint max_len (r : Re.regex) : nat :=
  match r with
  | Re.Eps => 0
  | Re.Chr _ | Re.Digit => 1
  | Re.Cat r1 r2 => max_len r1 + max_len r2
  | Re.Rep r _ hi => hi * max_len r
  end.

(** The part of the pattern between ["backup-"] and the user name: the date
    and the time. *)
Definition timestamp_pattern : Re.regex :=
  Re.seq [ Re.digits 1 2; Re.lit "."; Re.digits 1 2; Re.lit ".";
           Re.digits 4 4; Re.lit "_"; Re.digits 2 2; Re.lit "-";
           Re.digits 2 2; Re.lit "-"; Re.digits 2 2 ].

(** What a match leaves is the end of the string, and what it takes has a
    length between [min_len] and [max_len]. *)
Definition takes (lo hi : nat) (step : string -> list string) : Prop :=
  forall s rest,
    In rest (step s) ->
    exists taken,
      s = taken ++ rest /\
      (lo <= String.length taken <= hi)%nat.

(** The exception [initiate_full_backup] raises, if any: the one of
    [requests.post], or the one of decoding an answer of status 200 whose
    body is not JSON or not an object. *)
Definition trigger_exception (env : Env) : option exn :=
  match post_result env with
  | inl msg => Some (ExternalError msg)
  | inr (status_code, decoded) =>
      if negb (status_code =? 200)%Z then None
      else
        match decoded with
        | None => Some JSONDecodeError
        | Some NotADict => Some AttributeError
        | Some (Dict _) => None
        end
  end.

(** The constructor of the target's handler, for what it does. *)
Definition handler_init (cfg : Config) (env : Env) (t : target) : M unit :=
  match t with
  | gdrive =>
      call (GDriveBuild (GOOGLE_CREDENTIALS_FILE cfg)) (gdrive_build_error env)
  | s3 => call (S3Session (AWS_PROFILE cfg)) (s3_session_error env)
  end.

(** The driver with the methods of the target's handler in place. *)
Definition driver (cfg : Config) (env : Env) (t : target)
  : M (option string * bool) :=
  log AppLogger INFO Starting ;;
  log AppLogger INFO (TargetIs t) ;;
  backup_filename <- run_backup cfg env ;;
  handler_init cfg env t ;;
  upload_status <- upload_of cfg env t backup_filename ;;
  purge_of cfg env t ;;
  cleanup env backup_filename upload_status.

(** The events of a run, and the file system it leaves. *)
Definition events_of {A} (x : result A * FS * list event) : list event :=
  snd x.

Definition fs_of {A} (x : result A * FS * list event) : FS := snd (fst x).

(** The bench configuration with a negative delay. *)
Definition hasty_config : Config :=
  {| CPANEL_URL := "https://example.com:2083";
     CPANEL_USERNAME := "myuser";
     CPANEL_API_TOKEN := "TOKEN";
     AWS_PROFILE := "default";
     S3_BUCKET_NAME := "bucket";
     S3_BACKUP_KEY_PREFIX := "cpanel/";
     MAX_BACKUP_FILES := 1;
     BACKUP_CHECK_DELAY := -1;
     BACKUP_DESTINATION_EMAIL := None;
     GOOGLE_CREDENTIALS_FILE := "credentials.json";
     GOOGLE_DRIVE_FOLDER_ID := "FOLDER" |}.

(** The driver after the wait. *)
Definition after_sleep (cfg : Config) (env : Env) (t : target)
  : M (option string * bool) :=
  backup_filename <-
    (backup_filename <- get_backup_file cfg ;;
     match backup_filename with
     | None =>
         log AppLogger ERROR NoBackupFileFound ;;
         ret None
     | Some f =>
         log AppLogger INFO (BackupFileIs f) ;;
         ret (Some f)
     end) ;;
  handler_init cfg env t ;;
  upload_status <- upload_of cfg env t backup_filename ;;
  purge_of cfg env t ;;
  cleanup env backup_filename upload_status.

(** The request or the wait. *)
Definition is_post_or_sleep (e : event) : bool := is_post e || is_sleep e.

(** The request of the trigger. *)
Definition the_post (cfg : Config) : event :=
  HttpPost (CPANEL_URL cfg ++ "/execute/Backup/fullbackup_to_homedir")
    ("cpanel " ++ CPANEL_USERNAME cfg ++ ":" ++ CPANEL_API_TOKEN cfg)
    (BACKUP_DESTINATION_EMAIL cfg) "include".

(** The error the constructor of the target's handler raises, if any. *)
Definition handler_error (env : Env) (t : target) : option string :=
  match t with
  | gdrive => gdrive_build_error env
  | s3 => s3_session_error env
  end.

(** The driver up to its last log record. *)
Definition before_all_done (cfg : Config) (env : Env) (t : target)
  : M (option string * bool) :=
  log AppLogger INFO Starting ;;
  log AppLogger INFO (TargetIs t) ;;
  backup_filename <- run_backup cfg env ;;
  handler_init cfg env t ;;
  upload_status <- upload_of cfg env t backup_filename ;;
  purge_of cfg env t ;;
  (if (upload_status : bool) then
     os_remove env backup_filename ;;
     log AppLogger INFO (CleanedUp backup_filename)
   else ret tt) ;;
  ret (backup_filename, upload_status).

Definition is_all_done (e : event) : bool :=
  match e with Log _ _ AllDone => true | _ => false end.

(** The constructor call of the target's handler. *)
Definition handler_call (cfg : Config) (t : target) : event :=
  match t with
  | gdrive => GDriveBuild (GOOGLE_CREDENTIALS_FILE cfg)
  | s3 => S3Session (AWS_PROFILE cfg)
  end.

Definition is_handler_call (e : event) : bool :=
  match e with
  | S3Session _ | GDriveBuild _ => true
  | _ => false
  end.

(** The directory of the logs and the log file, as absolute paths. *)
Definition logs_directory (env : Env) : string :=
  Path.join (cwd env) LOGS_DIRECTORY.

Definition log_file_path (env : Env) : string :=
  Path.join (cwd env) (Path.join LOGS_DIRECTORY (APP_NAME ++ ".log")).

(** [p] is the directory of the logs or a path inside it. *)
Definition in_logs (env : Env) (p : string) : Prop :=
  p = logs_directory env \/
  exists name, p = logs_directory env ++ "/" ++ name.

(** The set-up of the driver's logger, line 304. *)
Definition logger_setup (env : Env) : M (list logger) :=
  LogHandler_get_logger env AppLogger [].

(** The state of the file system once a logger has been set up: the
    directory of the logs can be made and is there, and so is the log file
    unless the root logger has a handler, in which case no logger of the
    script gets one. *)
Definition logging_in_place (env : Env) (d : FS) : Prop :=
  makedirs_error env (logs_directory env) = None /\
  In (logs_directory env) d /\
  (root_has_handlers env = true \/
   (open_error env (log_file_path env) = None /\
    In (log_file_path env) d)).

(** A world in which the AWS profile cannot be used. *)
Definition world_without_profile : Env :=
  {| cwd := "/opt/cpanel-backup";
     stat_fails := fun _ => false;
     os_remove_error := fun _ => None;
     makedirs_error := fun _ => None;
     open_error := fun _ => None;
     root_has_handlers := false;
     post_result := inr accepted_answer;
     guess_type := fun _ => None;
     s3_session_error := Some "ProfileNotFound";
     s3_upload_error := None;
     s3_list_result := inr (Some Bench.bucket);
     s3_delete_error := fun _ => None;
     gdrive_build_error := None;
     gdrive_create_error := None;
     gdrive_chunks := [];
     gdrive_last_chunk := inr (None, None);
     gdrive_list_result := inr None;
     gdrive_delete_error := fun _ => None |}.

(** * Properties *)

(** ** The model on small inputs *)

Example slice_from_counts_from_the_end :
  Py.slice_from [1; 2; 3]%Z (-1) = [3]%Z
  /\ Py.slice_from [1; 2; 3]%Z (-5) = [1; 2; 3]%Z
  /\ Py.slice_from [1; 2; 3]%Z 1 = [2; 3]%Z
  /\ Py.slice_to [1; 2; 3]%Z 5 = [1; 2; 3]%Z
  /\ Py.slice_to [1; 2; 3]%Z 2 = [1; 2]%Z.
Proof. repeat split. Qed.

Example sorted_is_stable :
  Py.sorted LastModified
    [ {| Key := "a"; LastModified := 5 |};
      {| Key := "b"; LastModified := 5 |};
      {| Key := "c"; LastModified := 1 |} ]
  = [ {| Key := "c"; LastModified := 1 |};
      {| Key := "a"; LastModified := 5 |};
      {| Key := "b"; LastModified := 5 |} ].
Proof. reflexivity. Qed.

Example basename_of_archive :
  Path.basename Bench.archive = "backup-8.17.2024_17-46-55_myuser.tar.gz"
  /\ Path.child_of "/home/myuser" Bench.archive = true
  /\ Path.child_of "/home/myuser" "/home/myuser/mail/inbox" = false
  /\ Path.child_of "/home/myuser" "/home/myuser" = false.
Proof. repeat split. Qed.

Example pattern_on_names :
  let matches_ := Re.match_ (regex_pattern (Bench.config 1)) in
  matches_ "backup-8.17.2024_17-46-55_myuser.tar.gz" = true
  /\ matches_ "backup-12.1.2024_07-06-05_myuser.tar.gz" = true
  /\ matches_ "backup-8.17.2024_17-46-55_myuser.tar.gz.partial" = true
  /\ matches_ "backup-8.17.2024_17-46-55_myuser.tar" = false
  /\ matches_ "backup-8.17.2024_17-46-55_other.tar.gz" = false
  /\ matches_ "backup-123.17.2024_17-46-55_myuser.tar.gz" = false
  /\ matches_ "backup-8.17.24_17-46-55_myuser.tar.gz" = false
  /\ matches_ "old-backup-8.17.2024_17-46-55_myuser.tar.gz" = false.
Proof. vm_compute. repeat split. Qed.

Example status_compared_with_1 :
  ne_1 (Some (JInt 1)) = false
  /\ ne_1 (Some (JBool true)) = false
  /\ ne_1 (Some (JFloat (Some (2 # 2)))) = false
  /\ ne_1 (Some (JInt 0)) = true
  /\ ne_1 (Some (JStr "1")) = true
  /\ ne_1 (Some JNull) = true
  /\ ne_1 None = true.
Proof. repeat split. Qed.

Example join_of_paths :
  Path.join "logs" "cPanelBackupPlus.log" = "logs/cPanelBackupPlus.log"
  /\ Path.join "/opt/cpanel-backup" "logs" = "/opt/cpanel-backup/logs"
  /\ Path.join "/" "logs" = "/logs"
  /\ Path.join "/opt/" "logs" = "/opt/logs"
  /\ Path.join "" "logs" = "logs"
  /\ Path.join "/opt" "/var/log" = "/var/log".
Proof. repeat split. Qed.

Example sleep_on_delays :
  time_sleep 60 [] = (Ok tt, [], [Sleep 60])
  /\ time_sleep 0 [] = (Ok tt, [], [Sleep 0])
  /\ time_sleep (-1) [] = (Raise ValueError, [], [])
  /\ time_sleep 9223372036 [] = (Ok tt, [], [Sleep 9223372036])
  /\ time_sleep 9223372037 [] = (Raise OverflowError, [], [])
  /\ time_sleep (-9223372036) [] = (Raise ValueError, [], [])
  /\ time_sleep (-9223372037) [] = (Raise OverflowError, [], [])
  /\ PyTime_MAX_SECONDS = ((2 ^ 63 - 1) / 10 ^ 9)%Z.
Proof. repeat split. Qed.

(** A run to Drive in which everything goes well: the archive is uploaded
    in two chunks, the two older files are deleted, the newer of them
    first, and the archive is removed from the home directory. *)
Example run_to_drive :
  main (Bench.config 1) (Bench.world (inr accepted_answer) None None) gdrive
    Bench.home_with_archive
  = (Ok (Some Bench.archive, true),
     ["/home/myuser"; "/home/myuser/.bashrc"],
     [ Log AppLogger INFO Starting;
       Log AppLogger INFO (TargetIs gdrive);
       Log AppLogger INFO InitializingFullBackup;
       HttpPost "https://example.com:2083/execute/Backup/fullbackup_to_homedir"
         "cpanel myuser:TOKEN" None "include";
       Log AppLogger INFO InitiatedFullBackup;
       Log AppLogger INFO (WaitingFor 60);
       Sleep 60;
       Log AppLogger INFO (LookingForBackupFile "/home/myuser");
       Log AppLogger INFO (BackupFileIs Bench.archive);
       GDriveBuild "credentials.json";
       Log GDriveLogger INFO (TryingToUpload (Some Bench.archive));
       GDriveFilesCreate "backup-8.17.2024_17-46-55_myuser.tar.gz" "FOLDER"
         "application/x-tar";
       GDriveNextChunk;
       Log GDriveLogger INFO (UploadedPercent 50);
       GDriveNextChunk;
       Log GDriveLogger INFO (Uploaded (Some "id4"));
       Log GDriveLogger INFO (UploadStatus true);
       GDriveFilesList "'FOLDER' in parents and trashed = false"
         "createdTime desc";
       GDriveFilesDelete "id2";
       Log GDriveLogger INFO (Purged "b.tar.gz");
       GDriveFilesDelete "id1";
       Log GDriveLogger INFO (Purged "a.tar.gz");
       Log AppLogger INFO (CleanedUp (Some Bench.archive));
       Log AppLogger INFO AllDone ]).
Proof. vm_compute. reflexivity. Qed.

(** The whole driver on the same run to S3: the set-up of the logger makes
    the directory of the logs and the log file in the working directory,
    and logs nothing itself. *)
Example script_makes_the_logs :
  logger_setup (Bench.world (inr accepted_answer) None None)
    Bench.home_with_archive
  = (Ok [AppLogger],
     ["/home/myuser"; "/home/myuser/.bashrc"; Bench.archive;
      "/opt/cpanel-backup/logs";
      "/opt/cpanel-backup/logs/cPanelBackupPlus.log"],
     [])
  /\ fs_of (script (Bench.config 1)
              (Bench.world (inr accepted_answer) None None) s3
              Bench.home_with_archive)
     = ["/home/myuser"; "/home/myuser/.bashrc";
        "/opt/cpanel-backup/logs";
        "/opt/cpanel-backup/logs/cPanelBackupPlus.log"].
Proof. split; vm_compute; reflexivity. Qed.

(** When the name [logs] is taken by a file, the run ends in the
    constructor of [LogHandler], before its first log record. *)
Example run_without_logs_directory :
  script (Bench.config 1) Bench.logs_is_a_file s3 Bench.home_with_archive
  = (Raise (OSError "FileExistsError"), Bench.home_with_archive, []).
Proof. vm_compute. reflexivity. Qed.

(** When the archive the locator finds is a link that leads nowhere,
    [upload] returns failure without a call to the destination; the purge
    runs all the same, and the link stays. *)
Example run_on_a_dangling_link :
  main (Bench.config 1) Bench.dangling_archive s3 Bench.home_with_archive
  = (Ok (Some Bench.archive, false), Bench.home_with_archive,
     [ Log AppLogger INFO Starting;
       Log AppLogger INFO (TargetIs s3);
       Log AppLogger INFO InitializingFullBackup;
       HttpPost "https://example.com:2083/execute/Backup/fullbackup_to_homedir"
         "cpanel myuser:TOKEN" None "include";
       Log AppLogger INFO InitiatedFullBackup;
       Log AppLogger INFO (WaitingFor 60);
       Sleep 60;
       Log AppLogger INFO (LookingForBackupFile "/home/myuser");
       Log AppLogger INFO (BackupFileIs Bench.archive);
       S3Session "default";
       Log S3Logger WARNING (CannotUpload (Some Bench.archive));
       S3ListObjectsV2 "bucket" "cpanel/";
       S3DeleteObject "bucket" "cpanel/old.tar.gz";
       Log S3Logger INFO (Purged "cpanel/old.tar.gz");
       Log AppLogger INFO AllDone ]).
Proof. vm_compute. reflexivity. Qed.

(** When the AWS profile cannot be used, the run ends in the constructor of
    the handler, which is called once the backup has been requested, waited
    for and found. *)
Example run_without_profile :
  main (Bench.config 1) world_without_profile s3 Bench.home_with_archive
  = (Raise (ExternalError "ProfileNotFound"), Bench.home_with_archive,
     [ Log AppLogger INFO Starting;
       Log AppLogger INFO (TargetIs s3);
       Log AppLogger INFO InitializingFullBackup;
       HttpPost "https://example.com:2083/execute/Backup/fullbackup_to_homedir"
         "cpanel myuser:TOKEN" None "include";
       Log AppLogger INFO InitiatedFullBackup;
       Log AppLogger INFO (WaitingFor 60);
       Sleep 60;
       Log AppLogger INFO (LookingForBackupFile "/home/myuser");
       Log AppLogger INFO (BackupFileIs Bench.archive);
       S3Session "default" ]).
Proof. vm_compute. reflexivity. Qed.

(** When the archive cannot be removed, the run ends in [os.remove], after
    the upload and the purge, without the last two log records. *)
Example run_in_a_read_only_home :
  main (Bench.config 1) Bench.read_only_home s3 Bench.home_with_archive
  = (Raise (OSError "PermissionError"), Bench.home_with_archive,
     [ Log AppLogger INFO Starting;
       Log AppLogger INFO (TargetIs s3);
       Log AppLogger INFO InitializingFullBackup;
       HttpPost "https://example.com:2083/execute/Backup/fullbackup_to_homedir"
         "cpanel myuser:TOKEN" None "include";
       Log AppLogger INFO InitiatedFullBackup;
       Log AppLogger INFO (WaitingFor 60);
       Sleep 60;
       Log AppLogger INFO (LookingForBackupFile "/home/myuser");
       Log AppLogger INFO (BackupFileIs Bench.archive);
       S3Session "default";
       Log S3Logger INFO (TryingToUpload (Some Bench.archive));
       S3UploadFile (Some Bench.archive) "bucket"
         "cpanel/backup-8.17.2024_17-46-55_myuser.tar.gz";
       Log S3Logger INFO
         (Uploaded (Some "cpanel/backup-8.17.2024_17-46-55_myuser.tar.gz"));
       Log S3Logger INFO (UploadStatus true);
       S3ListObjectsV2 "bucket" "cpanel/";
       S3DeleteObject "bucket" "cpanel/old.tar.gz";
       Log S3Logger INFO (Purged "cpanel/old.tar.gz") ]).
Proof. vm_compute. reflexivity. Qed.

(** ** The monad *)

Lemma after_nil {A} (x : result A * FS * list event) : after [] x = x.
Proof. destruct x as [[r d] evs]; reflexivity. Qed.

Lemma after_after {A} (evs evs' : list event)
  (x : result A * FS * list event) :
  after evs (after evs' x) = after (evs ++ evs')%list x.
Proof.
  destruct x as [[r d] evs'']; simpl. now rewrite app_assoc.
Qed.

Lemma bind_ok {A B} (c : M A) (k : A -> M B) d a d' evs :
  c d = (Ok a, d', evs) -> bind c k d = after evs (k a d').
Proof. intros H; unfold bind; now rewrite H. Qed.

Lemma bind_raise {A B} (c : M A) (k : A -> M B) d e d' evs :
  c d = (Raise e, d', evs) -> bind c k d = (Raise e, d', evs).
Proof. intros H; unfold bind; now rewrite H. Qed.

Lemma bind_after {A B} (c : M A) (k : A -> M B) d evs x :
  c d = after evs x ->
  bind c k d
  = after evs (match x with
               | (Ok a, d', evs') => after evs' (k a d')
               | (Raise e, d', evs') => (Raise e, d', evs')
               end).
Proof.
  intros H; unfold bind; rewrite H.
  destruct x as [[[a|e] d'] evs']; simpl; [|reflexivity].
  now rewrite after_after.
Qed.

Lemma bind_assoc {A B C} (c : M A) (f : A -> M B) (g : B -> M C) d :
  bind (bind c f) g d = bind c (fun a => bind (f a) g) d.
Proof.
  unfold bind. destruct (c d) as [[[a|e] d'] evs]; [|reflexivity].
  destruct (f a d') as [[[b|e] d''] evs']; simpl; [|reflexivity].
  destruct (g b d'') as [[r d3] evs'']; simpl. now rewrite app_assoc.
Qed.

Lemma bind_ext {A B} (c : M A) (k k' : A -> M B) d :
  (forall a d', k a d' = k' a d') -> bind c k d = bind c k' d.
Proof.
  intros H. unfold bind. destruct (c d) as [[[a|e] d'] evs]; [|reflexivity].
  now rewrite H.
Qed.

Lemma bind_ret {A B} (a : A) (k : A -> M B) d : bind (ret a) k d = k a d.
Proof. unfold bind, ret. apply after_nil. Qed.

Lemma bind_emit {B} (e : event) (k : unit -> M B) d :
  bind (emit e) k d = after [e] (k tt d).
Proof. reflexivity. Qed.

(** ** The driver, in phases *)

Lemma main_phases cfg env t d :
  main cfg env t d
  = bind (upto_upload cfg env t)
      (fun x => purge_of cfg env t ;; cleanup env (fst x) (snd x)) d.
Proof.
  unfold main, upto_upload, log.
  rewrite (bind_assoc (emit _)), !(bind_emit (Log AppLogger INFO Starting)).
  f_equal.
  rewrite (bind_assoc (emit _)), !bind_emit. f_equal.
  rewrite bind_assoc. apply bind_ext; intros bf d1.
  destruct t; unfold new_handler, purge_of, GDriveHandler, S3Handler.
  - rewrite !bind_assoc. apply bind_ext; intros [] d2.
    rewrite !bind_ret. cbn [upload purge].
    rewrite !bind_assoc. apply bind_ext; intros b d3.
    rewrite !bind_ret, !bind_assoc. apply bind_ext; intros [] d4.
    rewrite bind_ret. reflexivity.
  - rewrite !bind_assoc. apply bind_ext; intros [] d2.
    rewrite !bind_ret. cbn [upload purge].
    rewrite !bind_assoc. apply bind_ext; intros b d3.
    rewrite !bind_ret, !bind_assoc. apply bind_ext; intros [] d4.
    rewrite bind_ret. reflexivity.
Qed.

(** ** What leaves the local file system alone *)

Create HintDb keeps.

Lemma keeps_ret {A} (a : A) : keeps_fs (ret a).
Proof. intros d r d' evs H; inversion H; reflexivity. Qed.

Lemma keeps_raise {A} (e : exn) : keeps_fs (@raise A e).
Proof. intros d r d' evs H; inversion H; reflexivity. Qed.

Lemma keeps_emit (e : event) : keeps_fs (emit e).
Proof. intros d r d' evs H; inversion H; reflexivity. Qed.

Lemma keeps_bind {A B} (c : M A) (k : A -> M B) :
  keeps_fs c -> (forall a, keeps_fs (k a)) -> keeps_fs (bind c k).
Proof.
  intros Hc Hk d r d' evs. unfold bind.
  destruct (c d) as [[[a|e] d1] evs1] eqn:E; apply Hc in E; subst d1.
  - destruct (k a d) as [[r2 d2] evs2] eqn:E2. apply Hk in E2.
    simpl. intros H; inversion H; subst; reflexivity.
  - intros H; inversion H; reflexivity.
Qed.

Lemma keeps_try_except {A} (c : M A) (h : exn -> M A) :
  keeps_fs c -> (forall e, keeps_fs (h e)) -> keeps_fs (try_except c h).
Proof.
  intros Hc Hh d r d' evs. unfold try_except.
  destruct (c d) as [[[a|e] d1] evs1] eqn:E; apply Hc in E; subst d1.
  - intros H; inversion H; reflexivity.
  - destruct (h e d) as [[r2 d2] evs2] eqn:E2. apply Hh in E2.
    simpl. intros H; inversion H; subst; reflexivity.
Qed.

Lemma keeps_for_each {A} (l : list A) (body : A -> M unit) :
  (forall x, keeps_fs (body x)) -> keeps_fs (for_each l body).
Proof.
  intros Hb. induction l as [|x l IH]; simpl.
  - apply keeps_ret.
  - apply keeps_bind; auto.
Qed.

Lemma keeps_call (e : event) (err : option string) : keeps_fs (call e err).
Proof.
  unfold call. apply keeps_bind; [apply keeps_emit|].
  intros _. destruct err; [apply keeps_raise | apply keeps_ret].
Qed.

Lemma keeps_log who lvl m : keeps_fs (log who lvl m).
Proof. apply keeps_emit. Qed.

Lemma keeps_os_path_exists env p : keeps_fs (os_path_exists env p).
Proof.
  destruct p; simpl; [|apply keeps_raise].
  intros d r d' evs H; inversion H; reflexivity.
Qed.

Lemma keeps_os_path_basename p : keeps_fs (os_path_basename p).
Proof. destruct p; simpl; [apply keeps_ret | apply keeps_raise]. Qed.

Lemma keeps_mimetypes_guess_type env p :
  keeps_fs (mimetypes_guess_type env p).
Proof. destruct p; simpl; [apply keeps_ret | apply keeps_raise]. Qed.

Lemma keeps_iterdir dir : keeps_fs (iterdir dir).
Proof.
  intros d r d' evs. unfold iterdir.
  destruct (existsb _ d); intros H; inversion H; reflexivity.
Qed.

Lemma keeps_time_sleep n : keeps_fs (time_sleep n).
Proof.
  unfold time_sleep.
  destruct (_ || _); [apply keeps_raise|].
  destruct (n <? 0)%Z; [apply keeps_raise | apply keeps_emit].
Qed.

#[local] Hint Resolve keeps_ret keeps_raise keeps_emit keeps_call keeps_log
  keeps_os_path_exists keeps_os_path_basename keeps_mimetypes_guess_type
  keeps_iterdir keeps_time_sleep : keeps.

Ltac keeps :=
  repeat first
    [ progress auto with keeps
    | apply keeps_bind; [|intros ?]
    | apply keeps_try_except; [|intros ?]
    | apply keeps_for_each; intros ?
    | match goal with
      | |- keeps_fs (match ?x with _ => _ end) => destruct x
      | |- keeps_fs (if ?x then _ else _) => destruct x
      | |- keeps_fs (let _ := _ in _) => cbv zeta
      end ].

Lemma keeps_S3Handler_purge cfg env : keeps_fs (S3Handler_purge cfg env).
Proof. unfold S3Handler_purge. keeps. Qed.

Lemma keeps_S3Handler_upload cfg env p : keeps_fs (S3Handler_upload cfg env p).
Proof. unfold S3Handler_upload. keeps. Qed.

Lemma keeps_next_chunks env statuses : keeps_fs (next_chunks env statuses).
Proof. induction statuses as [|st l IH]; simpl; keeps. Qed.

Lemma keeps_GDriveHandler_upload cfg env p :
  keeps_fs (GDriveHandler_upload cfg env p).
Proof.
  unfold GDriveHandler_upload.
  pose proof (keeps_next_chunks env) as Hn. keeps.
Qed.

Lemma keeps_GDriveHandler_purge cfg env :
  keeps_fs (GDriveHandler_purge cfg env).
Proof. unfold GDriveHandler_purge. keeps. Qed.

Lemma keeps_purge_of cfg env t : keeps_fs (purge_of cfg env t).
Proof.
  destruct t; [apply keeps_GDriveHandler_purge | apply keeps_S3Handler_purge].
Qed.

Lemma keeps_upload_of cfg env t p : keeps_fs (upload_of cfg env t p).
Proof.
  destruct t; [apply keeps_GDriveHandler_upload | apply keeps_S3Handler_upload].
Qed.

Lemma keeps_initiate_full_backup cfg env :
  keeps_fs (initiate_full_backup cfg env).
Proof. unfold initiate_full_backup. keeps. Qed.

Lemma keeps_get_backup_file cfg : keeps_fs (get_backup_file cfg).
Proof. unfold get_backup_file. keeps. Qed.

Lemma keeps_run_backup cfg env : keeps_fs (run_backup cfg env).
Proof.
  unfold run_backup.
  pose proof (keeps_initiate_full_backup cfg env).
  pose proof (keeps_get_backup_file cfg). keeps.
Qed.

(** The handler the driver makes has the methods of its class. *)
Lemma new_handler_ok cfg env t d h d' evs :
  new_handler cfg env t d = (Ok h, d', evs) ->
  d' = d /\ upload h = upload_of cfg env t /\ purge h = purge_of cfg env t.
Proof.
  destruct t; unfold new_handler, GDriveHandler, S3Handler, call; simpl;
    unfold bind; simpl.
  - destruct (gdrive_build_error env); simpl; intros H; inversion H; auto.
  - destruct (s3_session_error env); simpl; intros H; inversion H; auto.
Qed.

Lemma keeps_new_handler cfg env t : keeps_fs (new_handler cfg env t).
Proof. destruct t; unfold new_handler, GDriveHandler, S3Handler; keeps. Qed.

Lemma keeps_upto_upload cfg env t : keeps_fs (upto_upload cfg env t).
Proof.
  unfold upto_upload.
  apply keeps_bind; [apply keeps_log | intros _].
  apply keeps_bind; [apply keeps_log | intros _].
  apply keeps_bind; [apply keeps_run_backup | intros bf].
  intros d r d' evs. unfold bind.
  destruct (new_handler cfg env t d) as [[[h|e] d1] evs1] eqn:E.
  - apply new_handler_ok in E. destruct E as (-> & Hu & _). rewrite Hu.
    destruct (upload_of cfg env t bf d) as [[[b|e] d2] evs2] eqn:E2;
      apply keeps_upload_of in E2; subst d2; simpl;
      intros H; inversion H; reflexivity.
  - apply keeps_new_handler in E. intros H; inversion H; subst; reflexivity.
Qed.

(** ** Purge *)

Lemma S3Handler_purge_eq cfg env d :
  S3Handler_purge cfg env d
  = after [listing_call cfg s3]
      (match s3_list_result env with
       | inl msg => (Raise (ExternalError msg), d, [])
       | inr None => (Ok tt, d, [])
       | inr (Some files) =>
           for_each (S3_files_to_delete (MAX_BACKUP_FILES cfg) files)
             (S3_delete cfg env) d
       end).
Proof.
  unfold S3Handler_purge. rewrite bind_emit. f_equal.
  destruct (s3_list_result env) as [msg|[files|]]; try reflexivity.
  unfold S3_files_to_delete. cbv zeta.
  destruct (_ >? _)%Z; reflexivity.
Qed.

Lemma GDriveHandler_purge_eq cfg env d :
  GDriveHandler_purge cfg env d
  = after [listing_call cfg gdrive]
      (match gdrive_list_result env with
       | inl msg => (Raise (ExternalError msg), d, [])
       | inr results =>
           for_each
             (GDrive_files_to_delete (MAX_BACKUP_FILES cfg)
                (match results with Some files => files | None => [] end))
             (GDrive_delete env) d
       end).
Proof.
  unfold GDriveHandler_purge. cbv zeta. rewrite bind_emit. f_equal.
  destruct (gdrive_list_result env) as [msg|results]; try reflexivity.
  unfold GDrive_files_to_delete.
  destruct (_ >? _)%Z; reflexivity.
Qed.

(** Whatever happens next, a purge starts with its listing call. *)
Lemma purge_of_starts cfg env t d :
  exists r d' rest,
    purge_of cfg env t d = (r, d', listing_call cfg t :: rest).
Proof.
  destruct t; unfold purge_of.
  - rewrite GDriveHandler_purge_eq.
    match goal with |- context [after _ ?x] => destruct x as [[r d'] rest] end.
    now exists r, d', rest.
  - rewrite S3Handler_purge_eq.
    match goal with |- context [after _ ?x] => destruct x as [[r d'] rest] end.
    now exists r, d', rest.
Qed.

(** The driver after [upload] has returned. *)
Lemma main_after_upload cfg env t d bf b d2 evs :
  upto_upload cfg env t d = (Ok (bf, b), d2, evs) ->
  main cfg env t d
  = after evs (bind (purge_of cfg env t) (fun _ => cleanup env bf b) d2).
Proof.
  intros H. rewrite main_phases. now rewrite (bind_ok _ _ _ _ _ _ H).
Qed.

(** The driver when [upload] has not returned. *)
Lemma main_without_upload cfg env t d e d2 evs :
  upto_upload cfg env t d = (Raise e, d2, evs) ->
  main cfg env t d = (Raise e, d2, evs).
Proof.
  intros H. rewrite main_phases. now rewrite (bind_raise _ _ _ _ _ _ H).
Qed.

(** ** C1: purge and the result of upload *)

(** C1, as the code has it: in every run in which [upload] returns, with
    success or with failure, [purge] is called next; the events of the run
    are those up to the return of [upload], then the listing call of the
    purge, then the rest. *)
Theorem purge_follows_upload_whatever_its_result :
  forall cfg env t d bf (b : bool) d2 evs,
    upto_upload cfg env t d = (Ok (bf, b), d2, evs) ->
    exists r d' rest,
      main cfg env t d = (r, d', (evs ++ listing_call cfg t :: rest)%list).
Proof.
  intros cfg env t d bf b d2 evs H.
  rewrite (main_after_upload _ _ _ _ _ _ _ _ H).
  destruct (purge_of_starts cfg env t d2) as (r & d3 & rest & Hp).
  unfold bind. rewrite Hp.
  destruct r as [[]|e]; simpl.
  - destruct (cleanup env bf b d3) as [[r' d4] evs']. simpl. eauto.
  - eauto.
Qed.

Lemma purge_follows_upload_whatever_its_result_witness :
  exists evs,
    upto_upload (Bench.config 1)
      (Bench.world (inr accepted_answer) (Some "timeout") None) s3
      Bench.home_with_archive
    = (Ok (Some Bench.archive, false), Bench.home_with_archive, evs)
    /\ exists r d' rest,
         main (Bench.config 1)
           (Bench.world (inr accepted_answer) (Some "timeout") None) s3
           Bench.home_with_archive
         = (r, d', (evs ++ listing_call (Bench.config 1) s3 :: rest)%list).
Proof.
  eexists. split; [vm_compute; reflexivity|].
  apply (purge_follows_upload_whatever_its_result (Bench.config 1)
           (Bench.world (inr accepted_answer) (Some "timeout") None) s3
           Bench.home_with_archive (Some Bench.archive) false
           Bench.home_with_archive).
  vm_compute; reflexivity.
Defined.

(** The claim fails on a run to S3 whose upload times out while the bucket
    holds two objects and one is to be kept: [upload] returns failure, and
    the older object is deleted all the same. *)
Lemma purge_after_failed_upload_deletes :
  ~ no_purge_after_failed_upload (Bench.config 1)
      (Bench.world (inr accepted_answer) (Some "timeout") None) s3
      Bench.home_with_archive.
Proof.
  intros H.
  destruct (H _ _ _ _ _ _ eq_refl eq_refl) as [_ Hd].
  vm_compute in Hd. discriminate Hd.
Qed.

(** ** C6: the local clean-up *)

Lemma existsb_eqb_In (p : string) (d : FS) :
  existsb (String.eqb p) d = true <-> In p d.
Proof.
  rewrite existsb_exists. split.
  - intros (q & Hq & E). apply String.eqb_eq in E. now subst.
  - intros H. exists p. split; [assumption | apply String.eqb_refl].
Qed.

Lemma not_In_removed (f : string) (d : FS) : ~ In f (removed f d).
Proof.
  unfold removed. rewrite filter_In. intros [_ H].
  now rewrite String.eqb_refl in H.
Qed.

Lemma path_exists_In env p d : path_exists env p d = true -> In p d.
Proof.
  unfold path_exists. rewrite andb_true_iff. intros [H _].
  now apply existsb_eqb_In.
Qed.

Lemma not_In_path_exists env p d : ~ In p d -> path_exists env p d = false.
Proof.
  intros H. destruct (path_exists env p d) eqn:E; [|reflexivity].
  apply path_exists_In in E. contradiction.
Qed.

Lemma upload_of_true cfg env t bf d d' evs :
  upload_of cfg env t bf d = (Ok true, d', evs) ->
  exists f, bf = Some f /\ In f d.
Proof.
  destruct bf as [f|].
  - intros H. exists f. split; [reflexivity|].
    apply (path_exists_In env).
    destruct (path_exists env f d) eqn:E; [reflexivity|].
    destruct t; unfold upload_of, S3Handler_upload, GDriveHandler_upload,
      bind in H; simpl in H; rewrite E in H; simpl in H; discriminate H.
  - destruct t; intros H; discriminate H.
Qed.

Lemma upto_upload_inv cfg env t d bf b d2 evs :
  upto_upload cfg env t d = (Ok (bf, b), d2, evs) ->
  d2 = d /\ exists evs1 evs2,
    upload_of cfg env t bf d = (Ok b, d, evs2) /\ evs = (evs1 ++ evs2)%list.
Proof.
  intros H. split; [apply (keeps_upto_upload _ _ _ _ _ _ _ H)|].
  unfold upto_upload, log in H. rewrite !bind_emit in H.
  unfold bind in H.
  destruct (run_backup cfg env d) as [[[bf'|e] d1] evs1] eqn:E1;
    [|discriminate H].
  apply keeps_run_backup in E1 as ->.
  destruct (new_handler cfg env t d) as [[[h|e] d1] evsh] eqn:Eh;
    [|discriminate H].
  apply new_handler_ok in Eh as (-> & Hu & _). rewrite Hu in H.
  destruct (upload_of cfg env t bf' d) as [[[b'|e] d1] evsu] eqn:Eu;
    [|discriminate H].
  pose proof (keeps_upload_of _ _ _ _ _ _ _ _ Eu) as ->.
  simpl in H. inversion H; subst.
  exists (Log AppLogger INFO Starting
          :: Log AppLogger INFO (TargetIs t) :: evs1 ++ evsh)%list, evsu.
  split; [exact Eu|].
  rewrite app_nil_r. simpl. now rewrite <- app_assoc.
Qed.

Lemma cleanup_true env f d :
  In f d ->
  os_remove_error env f = None ->
  cleanup env (Some f) true d
  = (Ok (Some f, true), removed f d,
     [Log AppLogger INFO (CleanedUp (Some f)); Log AppLogger INFO AllDone]).
Proof.
  intros H Hr. apply existsb_eqb_In in H.
  unfold cleanup, bind, os_remove. rewrite H, Hr. reflexivity.
Qed.

(** When [os.remove] raises, the run ends there: nothing is removed and
    nothing more is logged. *)
Lemma cleanup_raises env f d msg :
  In f d ->
  os_remove_error env f = Some msg ->
  cleanup env (Some f) true d = (Raise (OSError msg), d, []).
Proof.
  intros H Hr. apply existsb_eqb_In in H.
  unfold cleanup, bind, os_remove. rewrite H, Hr. reflexivity.
Qed.

Lemma cleanup_false env bf d :
  cleanup env bf false d = (Ok (bf, false), d, [Log AppLogger INFO AllDone]).
Proof. reflexivity. Qed.

(** C6, as the code has it: the local backup file is removed exactly when
    [upload] has returned success, [purge] has then returned and
    [os.remove] itself has returned.  When [os.remove] raises, or [purge]
    raises, the run ends there with that exception and with the file in
    place; when [upload] has returned failure, or has not returned, the
    local file system is left as it was. *)
Theorem local_file_removed_iff_upload_purge_and_remove_return :
  forall cfg env t d r d' all,
    main cfg env t d = (r, d', all) ->
    match upto_upload cfg env t d with
    | (Ok (bf, true), d2, _) =>
        match purge_of cfg env t d2 with
        | (Ok _, _, _) =>
            exists f,
              bf = Some f /\ In f d /\
              match os_remove_error env f with
              | None =>
                  r = Ok (bf, true) /\ d' = removed f d /\ ~ In f d'
              | Some msg =>
                  r = Raise (OSError msg) /\ d' = d /\ In f d'
              end
        | (Raise e, _, _) => r = Raise e /\ d' = d
        end
    | _ => d' = d
    end.
Proof.
  intros cfg env t d r d' all Hmain.
  destruct (upto_upload cfg env t d) as [[[[bf b]|e] d2] evs] eqn:E.
  - rewrite (main_after_upload _ _ _ _ _ _ _ _ E) in Hmain.
    destruct (upto_upload_inv _ _ _ _ _ _ _ _ E) as (-> & evs1 & evs2 & Hu & _).
    unfold bind in Hmain.
    destruct (purge_of cfg env t d) as [[[[]|e] d3] pevs] eqn:Ep;
      pose proof (keeps_purge_of _ _ _ _ _ _ _ Ep) as ->.
    + destruct b.
      * destruct (upload_of_true _ _ _ _ _ _ _ Hu) as (f & -> & Hin).
        exists f. split; [reflexivity|]. split; [exact Hin|].
        destruct (os_remove_error env f) as [msg|] eqn:Er.
        -- rewrite (cleanup_raises _ _ _ _ Hin Er) in Hmain. simpl in Hmain.
           inversion Hmain; subst. auto.
        -- rewrite (cleanup_true _ _ _ Hin Er) in Hmain. simpl in Hmain.
           inversion Hmain; subst.
           repeat split; auto using not_In_removed.
      * rewrite cleanup_false in Hmain. simpl in Hmain.
        now inversion Hmain.
    + simpl in Hmain. inversion Hmain; subst. destruct b; auto.
  - rewrite (main_without_upload _ _ _ _ _ _ _ E) in Hmain.
    apply keeps_upto_upload in E. now inversion Hmain; subst.
Qed.

Lemma local_file_removed_iff_upload_purge_and_remove_return_witness :
  (exists r d' all,
     main (Bench.config 1) (Bench.world (inr accepted_answer) None None) s3
       Bench.home_with_archive = (r, d', all)
     /\ exists f,
          Some Bench.archive = Some f /\ In f Bench.home_with_archive /\
          r = Ok (Some Bench.archive, true) /\
          d' = removed f Bench.home_with_archive /\ ~ In f d')
  /\ (exists r d' all,
        main (Bench.config 1) Bench.read_only_home s3
          Bench.home_with_archive = (r, d', all)
        /\ exists f,
             Some Bench.archive = Some f /\ In f Bench.home_with_archive /\
             r = Raise (OSError "PermissionError") /\
             d' = Bench.home_with_archive /\ In f d').
Proof.
  split.
  - eexists _, _, _. split; [vm_compute; reflexivity|].
    exact (local_file_removed_iff_upload_purge_and_remove_return
             (Bench.config 1)
             (Bench.world (inr accepted_answer) None None) s3
             Bench.home_with_archive _ _ _ eq_refl).
  - eexists _, _, _. split; [vm_compute; reflexivity|].
    exact (local_file_removed_iff_upload_purge_and_remove_return
             (Bench.config 1) Bench.read_only_home s3
             Bench.home_with_archive _ _ _ eq_refl).
Defined.

(** The claim fails on a run to S3 whose upload succeeds and whose purge
    fails to delete the older object: the exception ends the run before the
    clean-up, and the archive is still in the home directory. *)
Lemma local_file_kept_after_successful_upload :
  ~ local_file_removed_after_upload (Bench.config 1)
      (Bench.world (inr accepted_answer) None (Some "cpanel/old.tar.gz")) s3
      Bench.home_with_archive.
Proof.
  intros H. apply (H _ _ _ _ _ _ eq_refl eq_refl).
  vm_compute. auto.
Qed.

(** ** Sorting and slicing *)

Section SortedFacts.

Context {A : Type} (key : A -> Z).

Let le (a b : A) : Prop := (key a <= key b)%Z.

Lemma insert_Permutation x l : Permutation (Py.insert key x l) (x :: l).
Proof.
  induction l as [|y l IH]; simpl; [reflexivity|].
  destruct (key x <=? key y)%Z; [reflexivity|].
  rewrite IH. apply perm_swap.
Qed.

Lemma sorted_Permutation l : Permutation (Py.sorted key l) l.
Proof.
  induction l as [|x l IH]; simpl; [reflexivity|].
  rewrite insert_Permutation. now apply perm_skip.
Qed.

Lemma sorted_length l : length (Py.sorted key l) = length l.
Proof. apply Permutation_length, sorted_Permutation. Qed.

Lemma insert_HdRel y x l :
  (key y <= key x)%Z -> HdRel le y l -> HdRel le y (Py.insert key x l).
Proof.
  intros Hyx H. destruct l as [|z l]; simpl.
  - now constructor.
  - destruct (key x <=? key z)%Z; constructor; [exact Hyx|].
    now inversion H.
Qed.

Lemma insert_Sorted x l : Sorted le l -> Sorted le (Py.insert key x l).
Proof.
  induction 1 as [|y l Hs IH Hd]; simpl.
  - repeat constructor.
  - destruct (key x <=? key y)%Z eqn:E.
    + constructor; [now constructor|]. constructor. unfold le. lia.
    + constructor; [exact IH|]. apply insert_HdRel; [lia | exact Hd].
Qed.

Lemma sorted_oldest_first l : oldest_first key (Py.sorted key l).
Proof.
  induction l as [|x l IH]; simpl; [constructor|].
  now apply insert_Sorted.
Qed.

End SortedFacts.

Section Splitting.

Context {A : Type} (R : A -> A -> Prop).

Lemma StronglySorted_app_inv l1 l2 :
  StronglySorted R (l1 ++ l2) ->
  StronglySorted R l1 /\ StronglySorted R l2 /\
  forall a b, In a l1 -> In b l2 -> R a b.
Proof.
  induction l1 as [|x l1 IH]; simpl; intros H.
  - repeat split; [constructor | exact H | contradiction].
  - inversion H as [|? ? Hs Hf]; subst.
    destruct (IH Hs) as (H1 & H2 & H12).
    rewrite Forall_app in Hf. destruct Hf as [Hf1 Hf2].
    repeat split; [now constructor | exact H2 |].
    intros a b [->|Ha] Hb; [|now apply H12].
    rewrite Forall_forall in Hf2. now apply Hf2.
Qed.

Hypothesis R_trans : forall a b c, R a b -> R b c -> R a c.

Lemma Sorted_app_inv l1 l2 :
  Sorted R (l1 ++ l2) ->
  Sorted R l1 /\ Sorted R l2 /\ forall a b, In a l1 -> In b l2 -> R a b.
Proof.
  intros H. apply Sorted_StronglySorted in H; [|exact R_trans].
  apply StronglySorted_app_inv in H. destruct H as (H1 & H2 & H12).
  repeat split; auto using StronglySorted_Sorted.
Qed.

Lemma Sorted_firstn n l : Sorted R l -> Sorted R (firstn n l).
Proof.
  intros H. rewrite <- (firstn_skipn n l) in H.
  now apply Sorted_app_inv in H.
Qed.

Lemma Sorted_skipn n l : Sorted R l -> Sorted R (skipn n l).
Proof.
  intros H. rewrite <- (firstn_skipn n l) in H.
  now apply Sorted_app_inv in H.
Qed.

End Splitting.

Lemma clamp_stop (n : nat) (max_kept : Z) :
  (0 <= max_kept)%Z -> (Z.of_nat n > max_kept)%Z ->
  Py.clamp n (Z.of_nat n - max_kept) = (n - Z.to_nat max_kept)%nat.
Proof.
  intros H0 H. unfold Py.clamp.
  destruct (Z.ltb_spec (Z.of_nat n - max_kept) 0); lia.
Qed.

Lemma clamp_start (n : nat) (max_kept : Z) :
  (0 <= max_kept)%Z -> (Z.of_nat n > max_kept)%Z ->
  Py.clamp n max_kept = Z.to_nat max_kept.
Proof.
  intros H0 H. unfold Py.clamp.
  destruct (Z.ltb_spec max_kept 0); lia.
Qed.

(** ** C4: the retention selection *)

Lemma S3_retention (older : Z -> Z -> Prop) max_kept files :
  (0 <= max_kept)%Z ->
  (forall a b, (a <= b)%Z -> older a b) ->
  retention_contract older LastModified (Py.sorted LastModified files)
    max_kept (S3_files_to_delete max_kept files).
Proof.
  intros H0 Hle. unfold retention_contract, S3_files_to_delete. cbv zeta.
  set (existing := Py.sorted LastModified files).
  destruct (Z.gtb_spec (Py.len existing) max_kept) as [Hgt|Hle'].
  - split; [lia|]. intros _. unfold Py.slice_to, Py.len in *.
    rewrite clamp_stop by lia.
    set (n := (length existing - Z.to_nat max_kept)%nat).
    split.
    + rewrite length_firstn. lia.
    + exists (skipn n existing). split; [now rewrite firstn_skipn|].
      intros d r Hd Hr. apply Hle.
      pose proof (sorted_oldest_first LastModified files) as Hs.
      fold existing in Hs. unfold oldest_first in Hs.
      rewrite <- (firstn_skipn n existing) in Hs.
      apply Sorted_app_inv in Hs; [|intros; lia].
      now apply Hs.
  - split; [reflexivity | lia].
Qed.

Lemma GDrive_retention (older : Z -> Z -> Prop) max_kept files :
  (0 <= max_kept)%Z ->
  (forall a b, (a <= b)%Z -> older a b) ->
  newest_first createdTime files ->
  retention_contract older createdTime (rev files) max_kept
    (rev (GDrive_files_to_delete max_kept files)).
Proof.
  intros H0 Hle Hs. unfold retention_contract, GDrive_files_to_delete.
  unfold Py.len. rewrite !length_rev.
  destruct (Z.gtb_spec (Z.of_nat (length files)) max_kept) as [Hgt|Hle'].
  - split; [lia|]. intros _. unfold Py.slice_from.
    rewrite clamp_start by lia.
    set (n := Z.to_nat max_kept).
    split.
    + rewrite ?length_rev, length_skipn. lia.
    + exists (rev (firstn n files)). split.
      * rewrite <- rev_app_distr. now rewrite firstn_skipn.
      * intros d r Hd Hr. apply Hle.
        apply in_rev in Hd. apply in_rev in Hr.
        unfold newest_first in Hs.
        rewrite <- (firstn_skipn n files) in Hs.
        apply Sorted_app_inv in Hs; [|intros; lia].
        now apply (proj2 (proj2 Hs) r d).
  - split; [reflexivity | lia].
Qed.

(** C4, as the code has it, for a retention count that is not negative.
    [S3Handler.purge] sorts the listing from the oldest to the newest and
    [GDriveHandler.purge] receives it from the newest to the oldest; with
    the listing read from the oldest to the newest, each selects nothing
    when the listing holds at most [max_kept] entries, and otherwise the
    first [len - max_kept] entries, none of them newer than a retained
    entry.  An entry as old as a retained one may be selected. *)
Theorem retention_selects_the_oldest_excess :
  forall max_kept,
    (0 <= max_kept)%Z ->
    (forall files,
       Permutation (Py.sorted LastModified files) files /\
       oldest_first LastModified (Py.sorted LastModified files) /\
       retention_contract Z.le LastModified (Py.sorted LastModified files)
         max_kept (S3_files_to_delete max_kept files)) /\
    (forall files,
       newest_first createdTime files ->
       retention_contract Z.le createdTime (rev files) max_kept
         (rev (GDrive_files_to_delete max_kept files))).
Proof.
  intros max_kept H0. split.
  - intros files. split; [apply sorted_Permutation|].
    split; [apply sorted_oldest_first|].
    now apply S3_retention.
  - intros files Hs. now apply GDrive_retention.
Qed.

Lemma retention_selects_the_oldest_excess_witness :
  (0 <= 1)%Z /\
  newest_first createdTime Bench.folder /\
  retention_contract Z.le LastModified
    (Py.sorted LastModified Bench.bucket) 1
    (S3_files_to_delete 1 Bench.bucket) /\
  retention_contract Z.le createdTime (rev Bench.folder) 1
    (rev (GDrive_files_to_delete 1 Bench.folder)).
Proof.
  assert (H0 : (0 <= 1)%Z) by lia.
  assert (Hs : newest_first createdTime Bench.folder)
    by (unfold newest_first, Bench.folder; repeat constructor; simpl; lia).
  split; [exact H0|]. split; [exact Hs|]. split.
  - apply (proj1 (retention_selects_the_oldest_excess 1 H0) Bench.bucket).
  - apply (proj2 (retention_selects_the_oldest_excess 1 H0) Bench.folder Hs).
Defined.

(** The claim fails in two ways.  With two objects of the same time and one
    to keep, the deleted object is not strictly older than the kept one;
    and with a negative count there are not [len - max_kept] entries to
    select. *)
Lemma retention_not_strict_nor_for_negative_counts :
  ~ strict_retention_contract LastModified
      (Py.sorted LastModified Bench.twins) 1
      (S3_files_to_delete 1 Bench.twins)
  /\ ~ strict_retention_contract LastModified
         (Py.sorted LastModified Bench.bucket) (-1)
         (S3_files_to_delete (-1) Bench.bucket)
  /\ ~ strict_retention_contract createdTime (rev Bench.folder) (-1)
         (rev (GDrive_files_to_delete (-1) Bench.folder)).
Proof.
  unfold strict_retention_contract, retention_contract.
  repeat split.
  - intros [_ H]. destruct (H ltac:(vm_compute; reflexivity))
      as (_ & retained & Heq & Holder).
    vm_compute in Heq. injection Heq as <-.
    specialize (Holder _ _ (or_introl eq_refl) (or_introl eq_refl)).
    vm_compute in Holder. discriminate Holder.
  - intros [_ H]. destruct (H ltac:(vm_compute; reflexivity)) as (Hlen & _).
    vm_compute in Hlen. discriminate Hlen.
  - intros [_ H]. destruct (H ltac:(vm_compute; reflexivity)) as (Hlen & _).
    vm_compute in Hlen. discriminate Hlen.
Qed.

(** ** C5: the retention count *)

Lemma S3_keep_none max_kept files :
  (max_kept <= 0)%Z ->
  S3_files_to_delete max_kept files = Py.sorted LastModified files.
Proof.
  intros H. unfold S3_files_to_delete. cbv zeta.
  set (existing := Py.sorted LastModified files).
  unfold Py.len, Py.slice_to, Py.clamp.
  destruct (Z.gtb_spec (Z.of_nat (length existing)) max_kept) as [Hgt|Hle].
  - destruct (Z.ltb_spec (Z.of_nat (length existing) - max_kept) 0); [lia|].
    rewrite Nat.min_r by lia. apply firstn_all.
  - destruct existing; [reflexivity | simpl in Hle; lia].
Qed.

Lemma GDrive_keep_none files : GDrive_files_to_delete 0 files = files.
Proof.
  unfold GDrive_files_to_delete.
  destruct files; reflexivity.
Qed.

(** The events a run starts with. *)
Lemma main_starts cfg env t d :
  exists r d' rest,
    main cfg env t d
    = (r, d',
       Log AppLogger INFO Starting
       :: Log AppLogger INFO (TargetIs t)
       :: Log AppLogger INFO InitializingFullBackup
       :: HttpPost (CPANEL_URL cfg ++ "/execute/Backup/fullbackup_to_homedir")
            ("cpanel " ++ CPANEL_USERNAME cfg ++ ":" ++ CPANEL_API_TOKEN cfg)
            (BACKUP_DESTINATION_EMAIL cfg) "include"
       :: rest).
Proof.
  unfold main, run_backup, initiate_full_backup, log.
  rewrite !bind_emit. rewrite !bind_assoc, !bind_emit.
  rewrite !bind_assoc, !bind_emit.
  match goal with
  | |- context [after _ (after _ (after _ (after _ ?x)))] =>
      destruct x as [[r d'] rest]
  end.
  now exists r, d', rest.
Qed.

(** C5, as the code has it: the retention count is not checked.  Whatever
    it is, the run starts and posts the backup request; a count of zero or
    below makes the S3 purge select every listed object, and a count of
    zero makes the Drive purge select every listed file. *)
Theorem retention_count_is_not_validated :
  forall cfg env t d,
    (exists r d' rest,
       main cfg env t d
       = (r, d',
          Log AppLogger INFO Starting
          :: Log AppLogger INFO (TargetIs t)
          :: Log AppLogger INFO InitializingFullBackup
          :: HttpPost
               (CPANEL_URL cfg ++ "/execute/Backup/fullbackup_to_homedir")
               ("cpanel " ++ CPANEL_USERNAME cfg ++ ":"
                          ++ CPANEL_API_TOKEN cfg)
               (BACKUP_DESTINATION_EMAIL cfg) "include"
          :: rest)) /\
    ((MAX_BACKUP_FILES cfg <= 0)%Z ->
     forall files,
       S3_files_to_delete (MAX_BACKUP_FILES cfg) files
       = Py.sorted LastModified files) /\
    (MAX_BACKUP_FILES cfg = 0%Z ->
     forall files,
       GDrive_files_to_delete (MAX_BACKUP_FILES cfg) files = files).
Proof.
  intros cfg env t d. split; [apply main_starts|]. split.
  - intros H files. now apply S3_keep_none.
  - intros -> files. apply GDrive_keep_none.
Qed.

Lemma retention_count_is_not_validated_witness :
  (MAX_BACKUP_FILES (Bench.config 0) <= 0)%Z /\
  MAX_BACKUP_FILES (Bench.config 0) = 0%Z /\
  S3_files_to_delete (MAX_BACKUP_FILES (Bench.config 0)) Bench.bucket
  = Py.sorted LastModified Bench.bucket /\
  GDrive_files_to_delete (MAX_BACKUP_FILES (Bench.config 0)) Bench.folder
  = Bench.folder.
Proof.
  assert (H0 : (MAX_BACKUP_FILES (Bench.config 0) <= 0)%Z) by (simpl; lia).
  assert (H1 : MAX_BACKUP_FILES (Bench.config 0) = 0%Z) by reflexivity.
  pose proof (retention_count_is_not_validated (Bench.config 0)
                (Bench.world (inr accepted_answer) None None) s3
                Bench.home_with_archive) as (_ & HS3 & HDrive).
  split; [exact H0|]. split; [exact H1|]. split.
  - apply (HS3 H0).
  - apply (HDrive H1).
Defined.

(** The claim fails on a run to S3 with a retention count of zero: the run
    is not rejected, and it deletes both objects of the bucket. *)
Lemma zero_retention_count_deletes_everything :
  ~ rejected_at_startup (Bench.config 0)
      (Bench.world (inr accepted_answer) None None) s3
      Bench.home_with_archive
  /\ exists r d' all,
       main (Bench.config 0) (Bench.world (inr accepted_answer) None None)
         s3 Bench.home_with_archive = (r, d', all)
       /\ deletions all = map Key (Py.sorted LastModified Bench.bucket).
Proof.
  split.
  - intros H. destruct (H ltac:(simpl; lia)) as [e He].
    vm_compute in He. discriminate He.
  - eexists _, _, _. split; vm_compute; reflexivity.
Qed.

(** ** The deletion loops *)

Lemma for_each_all_ok {A} (body : A -> M unit) (evs : A -> list event) l d :
  (forall x, In x l -> body x d = (Ok tt, d, evs x)) ->
  for_each l body d = (Ok tt, d, flat_map evs l).
Proof.
  induction l as [|x l IH]; intros H; simpl; [reflexivity|].
  rewrite (bind_ok _ _ _ _ _ _ (H x (or_introl eq_refl))).
  rewrite IH by (intros y Hy; apply H; now right).
  reflexivity.
Qed.

(** The loop stops at the first iteration that raises. *)
Lemma for_each_stops {A} (body : A -> M unit) (evs : A -> list event)
  pre x post d e evs_x :
  (forall y, In y pre -> body y d = (Ok tt, d, evs y)) ->
  body x d = (Raise e, d, evs_x) ->
  for_each (pre ++ x :: post) body d
  = (Raise e, d, (flat_map evs pre ++ evs_x)%list).
Proof.
  induction pre as [|y pre IH]; intros Hpre Hx; simpl.
  - now rewrite (bind_raise _ _ _ _ _ _ Hx).
  - rewrite (bind_ok _ _ _ _ _ _ (Hpre y (or_introl eq_refl))).
    rewrite IH by (try exact Hx; intros z Hz; apply Hpre; now right).
    simpl. now rewrite app_assoc.
Qed.

Lemma S3_delete_ok cfg env file d :
  s3_delete_error env (Key file) = None ->
  S3_delete cfg env file d = (Ok tt, d, S3_deleted cfg file).
Proof. intros H. unfold S3_delete, call, bind. simpl. now rewrite H. Qed.

Lemma S3_delete_raises cfg env file d msg :
  s3_delete_error env (Key file) = Some msg ->
  S3_delete cfg env file d
  = (Raise (ExternalError msg), d,
     [S3DeleteObject (S3_BUCKET_NAME cfg) (Key file)]).
Proof. intros H. unfold S3_delete, call, bind. simpl. now rewrite H. Qed.

Lemma GDrive_delete_ok env file d :
  gdrive_delete_error env (file_id file) = None ->
  GDrive_delete env file d = (Ok tt, d, GDrive_deleted file).
Proof. intros H. unfold GDrive_delete, call, bind. simpl. now rewrite H. Qed.

Lemma GDrive_delete_raises env file d msg :
  gdrive_delete_error env (file_id file) = Some msg ->
  GDrive_delete env file d
  = (Raise (ExternalError msg), d, [GDriveFilesDelete (file_id file)]).
Proof. intros H. unfold GDrive_delete, call, bind. simpl. now rewrite H. Qed.

Lemma deletions_S3_deleted cfg l :
  deletions (flat_map (S3_deleted cfg) l) = map Key l.
Proof. induction l as [|x l IH]; simpl; [reflexivity | now rewrite IH]. Qed.

Lemma deletions_GDrive_deleted l :
  deletions (flat_map GDrive_deleted l) = map file_id l.
Proof. induction l as [|x l IH]; simpl; [reflexivity | now rewrite IH]. Qed.

(** ** C8: a deletion that fails *)

(** C8, as the code has it: a deletion that fails is not caught.  The purge
    raises at the failing delete call, after the deletions that went well
    and before any other: the entries that follow are not deleted, nothing
    is logged for the failure and nothing is tried again.  The exception
    ends the run before the clean-up. *)
Theorem failed_deletion_ends_the_run :
  forall cfg env,
    (forall d files pre file post msg,
       s3_list_result env = inr (Some files) ->
       S3_files_to_delete (MAX_BACKUP_FILES cfg) files
       = (pre ++ file :: post)%list ->
       (forall x, In x pre -> s3_delete_error env (Key x) = None) ->
       s3_delete_error env (Key file) = Some msg ->
       S3Handler_purge cfg env d
       = (Raise (ExternalError msg), d,
          (listing_call cfg s3 :: flat_map (S3_deleted cfg) pre
           ++ [S3DeleteObject (S3_BUCKET_NAME cfg) (Key file)])%list)) /\
    (forall d files pre file post msg,
       gdrive_list_result env = inr (Some files) ->
       GDrive_files_to_delete (MAX_BACKUP_FILES cfg) files
       = (pre ++ file :: post)%list ->
       (forall x, In x pre -> gdrive_delete_error env (file_id x) = None) ->
       gdrive_delete_error env (file_id file) = Some msg ->
       GDriveHandler_purge cfg env d
       = (Raise (ExternalError msg), d,
          (listing_call cfg gdrive :: flat_map GDrive_deleted pre
           ++ [GDriveFilesDelete (file_id file)])%list)) /\
    (forall t d bf b d2 evs e d3 pevs,
       upto_upload cfg env t d = (Ok (bf, b), d2, evs) ->
       purge_of cfg env t d2 = (Raise e, d3, pevs) ->
       main cfg env t d = (Raise e, d, (evs ++ pevs)%list)).
Proof.
  intros cfg env. repeat split.
  - intros d files pre file post msg Hl Hsel Hpre Hfile.
    rewrite S3Handler_purge_eq, Hl, Hsel.
    rewrite (for_each_stops _ (S3_deleted cfg) pre file post d
               (ExternalError msg)
               [S3DeleteObject (S3_BUCKET_NAME cfg) (Key file)]).
    + reflexivity.
    + intros y Hy. apply S3_delete_ok. now apply Hpre.
    + now apply S3_delete_raises.
  - intros d files pre file post msg Hl Hsel Hpre Hfile.
    rewrite GDriveHandler_purge_eq, Hl, Hsel.
    rewrite (for_each_stops _ GDrive_deleted pre file post d
               (ExternalError msg) [GDriveFilesDelete (file_id file)]).
    + reflexivity.
    + intros y Hy. apply GDrive_delete_ok. now apply Hpre.
    + now apply GDrive_delete_raises.
  - intros t d bf b d2 evs e d3 pevs Hu Hp.
    rewrite (main_after_upload _ _ _ _ _ _ _ _ Hu).
    rewrite (bind_raise _ _ _ _ _ _ Hp). simpl.
    apply keeps_upto_upload in Hu. apply keeps_purge_of in Hp.
    now subst.
Qed.

Lemma failed_deletion_ends_the_run_witness :
  exists evs pevs,
    upto_upload (Bench.config 0)
      (Bench.world (inr accepted_answer) None (Some "cpanel/old.tar.gz")) s3
      Bench.home_with_archive
    = (Ok (Some Bench.archive, true), Bench.home_with_archive, evs)
    /\ purge_of (Bench.config 0)
         (Bench.world (inr accepted_answer) None (Some "cpanel/old.tar.gz"))
         s3 Bench.home_with_archive
       = (Raise (ExternalError "AccessDenied"), Bench.home_with_archive, pevs)
    /\ deletions pevs = ["cpanel/old.tar.gz"]
    /\ main (Bench.config 0)
         (Bench.world (inr accepted_answer) None (Some "cpanel/old.tar.gz"))
         s3 Bench.home_with_archive
       = (Raise (ExternalError "AccessDenied"), Bench.home_with_archive,
          (evs ++ pevs)%list).
Proof.
  eexists _, _.
  split; [vm_compute; reflexivity|].
  split; [vm_compute; reflexivity|].
  split; [reflexivity|].
  apply (proj2 (proj2 (failed_deletion_ends_the_run (Bench.config 0)
           (Bench.world (inr accepted_answer) None
              (Some "cpanel/old.tar.gz"))))
           s3 Bench.home_with_archive (Some Bench.archive) true
           Bench.home_with_archive _ (ExternalError "AccessDenied")
           Bench.home_with_archive _);
    vm_compute; reflexivity.
Defined.

(** The claim fails on an S3 purge that is to delete both objects of the
    bucket and cannot delete the older one: the purge raises, and the newer
    object has had no delete call. *)
Lemma purge_does_not_survive_failed_deletion :
  ~ purge_survives_failed_deletion (Bench.config 0)
      (Bench.world (inr accepted_answer) None (Some "cpanel/old.tar.gz"))
      Bench.home_with_archive.
Proof.
  intros H. destruct (H _ eq_refl) as (d' & evs & Hp & _).
  vm_compute in Hp. discriminate Hp.
Qed.

(** ** C9: the order of the deletions *)

(** C9, as the code has it, when no deletion fails.  The S3 purge deletes
    the selected objects from the oldest to the newest.  The Drive purge
    deletes the selected files in the order of the listing it received,
    which is from the newest to the oldest. *)
Theorem deletion_order_follows_each_listing :
  forall cfg env d files,
    (s3_list_result env = inr (Some files) ->
     (forall x, s3_delete_error env (Key x) = None) ->
     let selected := S3_files_to_delete (MAX_BACKUP_FILES cfg) files in
     S3Handler_purge cfg env d
     = (Ok tt, d, listing_call cfg s3 :: flat_map (S3_deleted cfg) selected)
     /\ deletions (listing_call cfg s3 :: flat_map (S3_deleted cfg) selected)
        = map Key selected
     /\ oldest_first LastModified selected) /\
    (forall listed,
       gdrive_list_result env = inr (Some listed) ->
       (forall x, gdrive_delete_error env (file_id x) = None) ->
       let selected :=
         GDrive_files_to_delete (MAX_BACKUP_FILES cfg) listed in
       GDriveHandler_purge cfg env d
       = (Ok tt, d, listing_call cfg gdrive :: flat_map GDrive_deleted selected)
       /\ deletions
            (listing_call cfg gdrive :: flat_map GDrive_deleted selected)
          = map file_id selected
       /\ (newest_first createdTime listed ->
           newest_first createdTime selected)).
Proof.
  intros cfg env d files. split.
  - intros Hl Hok selected. repeat split.
    + rewrite S3Handler_purge_eq, Hl.
      rewrite (for_each_all_ok _ (S3_deleted cfg)); [reflexivity|].
      intros x _. now apply S3_delete_ok.
    + simpl. apply deletions_S3_deleted.
    + unfold selected, S3_files_to_delete. cbv zeta.
      destruct (_ >? _)%Z; [|constructor].
      apply Sorted_firstn; [intros; lia|]. apply sorted_oldest_first.
  - intros listed Hl Hok selected. repeat split.
    + rewrite GDriveHandler_purge_eq, Hl.
      rewrite (for_each_all_ok _ GDrive_deleted); [reflexivity|].
      intros x _. now apply GDrive_delete_ok.
    + simpl. apply deletions_GDrive_deleted.
    + intros Hs. unfold selected, GDrive_files_to_delete.
      destruct (_ >? _)%Z; [|constructor].
      apply Sorted_skipn; [intros; lia | exact Hs].
Qed.

Lemma deletion_order_follows_each_listing_witness :
  newest_first createdTime Bench.folder /\
  GDriveHandler_purge (Bench.config 1)
    (Bench.world (inr accepted_answer) None None) Bench.home_with_archive
  = (Ok tt, Bench.home_with_archive,
     listing_call (Bench.config 1) gdrive
     :: flat_map GDrive_deleted (GDrive_files_to_delete 1 Bench.folder)) /\
  deletions
    (listing_call (Bench.config 1) gdrive
     :: flat_map GDrive_deleted (GDrive_files_to_delete 1 Bench.folder))
  = ["id2"; "id1"] /\
  newest_first createdTime (GDrive_files_to_delete 1 Bench.folder).
Proof.
  assert (Hs : newest_first createdTime Bench.folder)
    by (unfold newest_first, Bench.folder; repeat constructor; simpl; lia).
  destruct (proj2 (deletion_order_follows_each_listing (Bench.config 1)
              (Bench.world (inr accepted_answer) None None)
              Bench.home_with_archive Bench.bucket)
              Bench.folder eq_refl (fun _ => eq_refl))
    as (Hp & Hd & Ho).
  split; [exact Hs|]. split; [exact Hp|]. split; [exact Hd|].
  exact (Ho Hs).
Defined.

(** The claim fails on the Drive purge with three files in the folder and
    one to keep: the file of time 20 is deleted before the file of time 10. *)
Lemma drive_deletes_newest_first :
  ~ deleted_oldest_first 1 Bench.folder
  /\ exists evs,
       GDriveHandler_purge (Bench.config 1)
         (Bench.world (inr accepted_answer) None None)
         Bench.home_with_archive
       = (Ok tt, Bench.home_with_archive, evs)
       /\ deletions evs = ["id2"; "id1"].
Proof.
  split.
  - unfold deleted_oldest_first, oldest_first. intros H.
    vm_compute in H. inversion H as [|? ? _ Hd]; subst.
    inversion Hd as [|? ? Hle]; subst. apply Hle. reflexivity.
  - eexists. split; vm_compute; reflexivity.
Qed.

(** ** C2: a trigger that is not accepted *)

Lemma main_after_trigger cfg env t d :
  main cfg env t d
  = after [Log AppLogger INFO Starting; Log AppLogger INFO (TargetIs t)]
      (bind (initiate_full_backup cfg env)
         (fun _ => after_trigger cfg env t) d).
Proof.
  unfold main, run_backup, after_trigger, log.
  rewrite !bind_emit, after_after. simpl. f_equal.
  now rewrite !bind_assoc.
Qed.

Lemma after_trigger_with_post cfg env r t d :
  after_trigger cfg (with_post env r) t d = after_trigger cfg env t d.
Proof. reflexivity. Qed.

Lemma initiate_rejected cfg env status_code decoded m d :
  post_result env = inr (status_code, decoded) ->
  rejection status_code decoded = Some m ->
  initiate_full_backup cfg env d
  = (Ok tt, d,
     [ Log AppLogger INFO InitializingFullBackup;
       HttpPost (CPANEL_URL cfg ++ "/execute/Backup/fullbackup_to_homedir")
         ("cpanel " ++ CPANEL_USERNAME cfg ++ ":" ++ CPANEL_API_TOKEN cfg)
         (BACKUP_DESTINATION_EMAIL cfg) "include";
       Log AppLogger ERROR m ]).
Proof.
  intros Hp Hr. unfold initiate_full_backup, log, rejection in *.
  rewrite !bind_emit, Hp.
  destruct (negb (status_code =? 200)%Z).
  - now inversion Hr.
  - destruct decoded as [[items|]|]; try discriminate Hr.
    destruct (ne_1 (dict_get items "status")); [|discriminate Hr].
    now inversion Hr.
Qed.

Lemma initiate_accepted cfg env d :
  post_result env = inr accepted_answer ->
  initiate_full_backup cfg env d
  = (Ok tt, d,
     [ Log AppLogger INFO InitializingFullBackup;
       HttpPost (CPANEL_URL cfg ++ "/execute/Backup/fullbackup_to_homedir")
         ("cpanel " ++ CPANEL_USERNAME cfg ++ ":" ++ CPANEL_API_TOKEN cfg)
         (BACKUP_DESTINATION_EMAIL cfg) "include";
       Log AppLogger INFO InitiatedFullBackup ]).
Proof.
  intros Hp. unfold initiate_full_backup, log.
  now rewrite !bind_emit, Hp.
Qed.

(** C2, as the code has it: an answer of the API that is not the accepted
    one is logged as an error and has no other effect.  The run goes on as
    it does after the accepted answer: same result, same file system, same
    events but for that one log record; so it waits, looks for the file,
    uploads and purges all the same. *)
Theorem rejected_trigger_is_only_logged :
  forall cfg env t d status_code decoded m,
    rejection status_code decoded = Some m ->
    exists r d' rest,
      main cfg (with_post env (inr accepted_answer)) t d
      = (r, d',
         (trigger_events cfg t
          ++ Log AppLogger INFO InitiatedFullBackup :: rest)%list)
      /\ main cfg (with_post env (inr (status_code, decoded))) t d
         = (r, d',
            (trigger_events cfg t ++ Log AppLogger ERROR m :: rest)%list).
Proof.
  intros cfg env t d status_code decoded m Hr.
  rewrite !main_after_trigger.
  rewrite (bind_ok _ _ _ _ _ _
             (initiate_accepted cfg (with_post env _) d eq_refl)).
  rewrite (bind_ok _ _ _ _ _ _
             (initiate_rejected cfg (with_post env _) _ _ _ d eq_refl Hr)).
  rewrite !after_trigger_with_post, !after_after.
  destruct (after_trigger cfg env t d) as [[r d'] rest].
  exists r, d', rest. split; reflexivity.
Qed.

Lemma rejected_trigger_is_only_logged_witness :
  rejection 200 (Some (Dict [("status", JInt 0)]))
  = Some (UnexpectedStatus (Some (JInt 0)))
  /\ exists r d' rest,
       main (Bench.config 1)
         (with_post (Bench.world (inr accepted_answer) None None)
            (inr accepted_answer)) s3 Bench.home_with_archive
       = (r, d',
          (trigger_events (Bench.config 1) s3
           ++ Log AppLogger INFO InitiatedFullBackup :: rest)%list)
       /\ main (Bench.config 1)
            (with_post (Bench.world (inr accepted_answer) None None)
               (inr (200%Z, Some (Dict [("status", JInt 0)])))) s3
            Bench.home_with_archive
          = (r, d',
             (trigger_events (Bench.config 1) s3
              ++ Log AppLogger ERROR (UnexpectedStatus (Some (JInt 0)))
              :: rest)%list).
Proof.
  split; [reflexivity|].
  apply (rejected_trigger_is_only_logged (Bench.config 1)
           (Bench.world (inr accepted_answer) None None) s3
           Bench.home_with_archive 200 (Some (Dict [("status", JInt 0)]))).
  reflexivity.
Defined.

(** The claim fails on a run to S3 in which the API answers 200 with a
    status of 0: the run waits, uploads the archive and purges. *)
Lemma run_goes_on_after_rejected_trigger :
  ~ trigger_failure_stops_run (Bench.config 1)
      (Bench.world (inr (200%Z, Some (Dict [("status", JInt 0)]))) None None)
      s3 Bench.home_with_archive.
Proof.
  intros H.
  specialize (H _ _ _ _ _ _ eq_refl eq_refl eq_refl).
  vm_compute in H. discriminate H.
Qed.

(** ** C3: no backup file *)

(** C3 on the code: [upload] raises [TypeError] when it is given [None],
    before any call to the destination; and a run to S3 from a home
    directory without archive logs that no backup file was found, makes the
    S3 handler, calls [upload] with [None] and ends with that [TypeError],
    not with an outcome of its own. *)
Theorem missing_archive_run_ends_in_TypeError :
  (forall cfg env t d, upload_of cfg env t None d = (Raise TypeError, d, []))
  /\ run_backup (Bench.config 1)
       (Bench.world (inr accepted_answer) None None)
       Bench.home_without_archive
     = (Ok None, Bench.home_without_archive,
        [ Log AppLogger INFO InitializingFullBackup;
          HttpPost
            "https://example.com:2083/execute/Backup/fullbackup_to_homedir"
            "cpanel myuser:TOKEN" None "include";
          Log AppLogger INFO InitiatedFullBackup;
          Log AppLogger INFO (WaitingFor 60);
          Sleep 60;
          Log AppLogger INFO (LookingForBackupFile "/home/myuser");
          Log AppLogger ERROR NoBackupFileFound ])
  /\ main (Bench.config 1) (Bench.world (inr accepted_answer) None None) s3
       Bench.home_without_archive
     = (Raise TypeError, Bench.home_without_archive,
        [ Log AppLogger INFO Starting;
          Log AppLogger INFO (TargetIs s3);
          Log AppLogger INFO InitializingFullBackup;
          HttpPost
            "https://example.com:2083/execute/Backup/fullbackup_to_homedir"
            "cpanel myuser:TOKEN" None "include";
          Log AppLogger INFO InitiatedFullBackup;
          Log AppLogger INFO (WaitingFor 60);
          Sleep 60;
          Log AppLogger INFO (LookingForBackupFile "/home/myuser");
          Log AppLogger ERROR NoBackupFileFound;
          S3Session "default" ]).
Proof.
  split; [|split].
  - intros cfg env [] d; reflexivity.
  - vm_compute; reflexivity.
  - vm_compute; reflexivity.
Qed.

(** ** C7: upload of a file that is not there *)

(** C7: for a path at which nothing exists ([os.path.exists] is false: the
    path is not listed, or it is a link that leads nowhere), [upload] of
    either handler returns [False]; all it has done is to log a warning,
    and it has made no call to the destination. *)
Theorem upload_of_missing_file_fails_quietly :
  forall cfg env p d,
    path_exists env p d = false ->
    S3Handler_upload cfg env (Some p) d
    = (Ok false, d, [Log S3Logger WARNING (CannotUpload (Some p))])
    /\ GDriveHandler_upload cfg env (Some p) d
       = (Ok false, d, [Log GDriveLogger WARNING (CannotUpload (Some p))]).
Proof.
  intros cfg env p d E.
  unfold S3Handler_upload, GDriveHandler_upload, bind. simpl.
  rewrite E. split; reflexivity.
Qed.

Lemma upload_of_missing_file_fails_quietly_witness :
  path_exists (Bench.world (inr accepted_answer) None None) Bench.archive
    Bench.home_without_archive = false
  /\ S3Handler_upload (Bench.config 1)
       (Bench.world (inr accepted_answer) None None) (Some Bench.archive)
       Bench.home_without_archive
     = (Ok false, Bench.home_without_archive,
        [Log S3Logger WARNING (CannotUpload (Some Bench.archive))])
  /\ GDriveHandler_upload (Bench.config 1)
       (Bench.world (inr accepted_answer) None None) (Some Bench.archive)
       Bench.home_without_archive
     = (Ok false, Bench.home_without_archive,
        [Log GDriveLogger WARNING (CannotUpload (Some Bench.archive))]).
Proof.
  assert (H : path_exists (Bench.world (inr accepted_answer) None None)
                Bench.archive Bench.home_without_archive = false)
    by reflexivity.
  split; [exact H|].
  apply (upload_of_missing_file_fails_quietly (Bench.config 1)
           (Bench.world (inr accepted_answer) None None) Bench.archive
           Bench.home_without_archive H).
Defined.

(** ** C10: the pattern matches at the start *)

Section MatchAtStart.

Variable t : string.

Let extends := extends_by t.

Lemma rep_extends step lo hi : extends step -> extends (Re.rep step lo hi).
Proof.
  intros Hstep. revert lo.
  induction hi as [|hi IH]; intros lo s rest; simpl.
  - destruct (lo =? 0)%nat; simpl; [|contradiction].
    intros [<-|[]]. now left.
  - rewrite !in_app_iff, !in_flat_map. intros [(mid & Hmid & Hrest)|H].
    + left. exists (mid ++ t). split; [now apply Hstep | now apply IH].
    + right. destruct (lo =? 0)%nat; simpl in *; [|contradiction].
      destruct H as [<-|[]]. now left.
Qed.

Lemma matches_extends r : extends (Re.matches r).
Proof.
  induction r as [|c| |r1 IH1 r2 IH2|r IH lo hi]; intros s rest; simpl.
  - intros [<-|[]]. now left.
  - destruct s as [|d s]; simpl; [contradiction|].
    destruct (c =? d)%char; simpl; [|contradiction].
    intros [<-|[]]. now left.
  - destruct s as [|d s]; simpl; [contradiction|].
    destruct (Re.is_digit d); simpl; [|contradiction].
    intros [<-|[]]. now left.
  - rewrite !in_flat_map. intros (mid & Hmid & Hrest).
    exists (mid ++ t). split; [now apply IH1 | now apply IH2].
  - now apply rep_extends.
Qed.

Lemma fullmatch_match_longer r s :
  Re.fullmatch r s = true -> Re.match_ r (s ++ t) = true.
Proof.
  unfold Re.fullmatch, Re.match_. rewrite existsb_exists.
  intros (rest & Hin & E). apply String.eqb_eq in E. subst rest.
  apply matches_extends in Hin.
  destruct (Re.matches r (s ++ t)); [contradiction | reflexivity].
Qed.

End MatchAtStart.

Lemma get_backup_file_eq cfg d :
  In (backup_directory cfg) d ->
  get_backup_file cfg d
  = (Ok (find (fun f => Re.match_ (regex_pattern cfg) (Path.basename f))
           (filter (Path.child_of (backup_directory cfg)) d)),
     d, [Log AppLogger INFO (LookingForBackupFile (backup_directory cfg))]).
Proof.
  intros H. apply existsb_eqb_In in H.
  unfold get_backup_file, log. rewrite bind_emit.
  unfold bind, iterdir. now rewrite H.
Qed.

(** C10: the pattern is matched at the start of the file name only.  When
    [name] is a backup file name, [name ++ extra] matches too, whatever
    [extra] is; and the locator returns an entry of the home directory
    called [name ++ extra] as the backup file: it finds a file, and that
    file is this one unless another entry matches as well. *)
Theorem locator_accepts_names_that_go_on :
  forall cfg name extra,
    Re.fullmatch (regex_pattern cfg) name = true ->
    Re.match_ (regex_pattern cfg) (name ++ extra) = true /\
    forall d p,
      In (backup_directory cfg) d ->
      In p d ->
      Path.child_of (backup_directory cfg) p = true ->
      Path.basename p = name ++ extra ->
      exists q,
        get_backup_file cfg d
        = (Ok (Some q), d,
           [Log AppLogger INFO (LookingForBackupFile (backup_directory cfg))])
        /\ ((forall q',
               In q' d ->
               Path.child_of (backup_directory cfg) q' = true ->
               Re.match_ (regex_pattern cfg) (Path.basename q') = true ->
               q' = p) ->
            q = p).
Proof.
  intros cfg name extra Hname.
  pose proof (fullmatch_match_longer extra _ _ Hname) as Hm.
  split; [exact Hm|].
  intros d p Hdir Hp Hchild Hbase.
  rewrite (get_backup_file_eq _ _ Hdir).
  set (accepts := fun f => Re.match_ (regex_pattern cfg) (Path.basename f)).
  set (entries := filter (Path.child_of (backup_directory cfg)) d).
  destruct (find accepts entries) as [q|] eqn:E.
  - exists q. split; [reflexivity|].
    intros Huniq. apply find_some in E. destruct E as [Hq Hacc].
    apply filter_In in Hq. destruct Hq as [Hq Hqc].
    now apply Huniq.
  - assert (Hacc : accepts p = false).
    { apply (find_none _ _ E). apply filter_In. now split. }
    unfold accepts in Hacc. rewrite Hbase, Hm in Hacc. discriminate Hacc.
Qed.

Lemma locator_accepts_names_that_go_on_witness :
  Re.fullmatch (regex_pattern (Bench.config 1))
    "backup-8.17.2024_17-46-55_myuser.tar.gz" = true
  /\ Re.match_ (regex_pattern (Bench.config 1))
       ("backup-8.17.2024_17-46-55_myuser.tar.gz" ++ ".partial") = true
  /\ exists q,
       get_backup_file (Bench.config 1)
         ["/home/myuser"; Bench.archive ++ ".partial"]
       = (Ok (Some q), ["/home/myuser"; Bench.archive ++ ".partial"],
          [Log AppLogger INFO
             (LookingForBackupFile (backup_directory (Bench.config 1)))])
       /\ q = Bench.archive ++ ".partial".
Proof.
  assert (Hname :
            Re.fullmatch (regex_pattern (Bench.config 1))
              "backup-8.17.2024_17-46-55_myuser.tar.gz" = true)
    by (vm_compute; reflexivity).
  destruct (locator_accepts_names_that_go_on (Bench.config 1)
              "backup-8.17.2024_17-46-55_myuser.tar.gz" ".partial" Hname)
    as [Hm Hloc].
  split; [exact Hname|]. split; [exact Hm|].
  destruct (Hloc ["/home/myuser"; Bench.archive ++ ".partial"]
              (Bench.archive ++ ".partial"))
    as (q & Hq & Huniq).
  - left; reflexivity.
  - right; left; reflexivity.
  - vm_compute; reflexivity.
  - vm_compute; reflexivity.
  - exists q. split; [exact Hq|].
    apply Huniq. intros q' [<-|[<-|[]]] Hc _.
    + vm_compute in Hc. discriminate Hc.
    + reflexivity.
Defined.

(** * Properties of the parts *)

(** ** What a computation emits *)

Lemma emits_ret {A} P (a : A) : emits_only P (ret a).
Proof. intros d r d' evs H; inversion H; reflexivity. Qed.

Lemma emits_raise {A} P (e : exn) : emits_only P (@raise A e).
Proof. intros d r d' evs H; inversion H; reflexivity. Qed.

Lemma emits_emit P (e : event) : P e = true -> emits_only P (emit e).
Proof. intros He d r d' evs H; inversion H; simpl; now rewrite He. Qed.

Lemma emits_bind {A B} P (c : M A) (k : A -> M B) :
  emits_only P c -> (forall a, emits_only P (k a)) -> emits_only P (bind c k).
Proof.
  intros Hc Hk d r d' evs. unfold bind.
  destruct (c d) as [[[a|e] d1] evs1] eqn:E; apply Hc in E.
  - destruct (k a d1) as [[r2 d2] evs2] eqn:E2. apply Hk in E2.
    simpl. intros H; inversion H; subst.
    rewrite forallb_app. now rewrite E, E2.
  - intros H; inversion H; subst; exact E.
Qed.

Lemma emits_try_except {A} P (c : M A) (h : exn -> M A) :
  emits_only P c -> (forall e, emits_only P (h e)) ->
  emits_only P (try_except c h).
Proof.
  intros Hc Hh d r d' evs. unfold try_except.
  destruct (c d) as [[[a|e] d1] evs1] eqn:E; apply Hc in E.
  - intros H; inversion H; subst; exact E.
  - destruct (h e d1) as [[r2 d2] evs2] eqn:E2. apply Hh in E2.
    simpl. intros H; inversion H; subst.
    rewrite forallb_app. now rewrite E, E2.
Qed.

Lemma emits_for_each {A} P (l : list A) (body : A -> M unit) :
  (forall x, emits_only P (body x)) -> emits_only P (for_each l body).
Proof.
  intros Hb. induction l as [|x l IH]; simpl.
  - apply emits_ret.
  - apply emits_bind; auto.
Qed.

Lemma emits_call P (e : event) (err : option string) :
  P e = true -> emits_only P (call e err).
Proof.
  intros He. unfold call. apply emits_bind; [now apply emits_emit|].
  intros _. destruct err; [apply emits_raise | apply emits_ret].
Qed.

Lemma emits_log P who lvl m :
  P (Log who lvl m) = true -> emits_only P (log who lvl m).
Proof. apply emits_emit. Qed.

Lemma emits_os_path_exists P env p : emits_only P (os_path_exists env p).
Proof.
  destruct p; simpl; [|apply emits_raise].
  intros d r d' evs H; inversion H; reflexivity.
Qed.

Lemma emits_os_path_basename P p : emits_only P (os_path_basename p).
Proof. destruct p; simpl; [apply emits_ret | apply emits_raise]. Qed.

Lemma emits_os_remove P env p : emits_only P (os_remove env p).
Proof.
  destruct p as [p|]; simpl; [|apply emits_raise].
  intros d r d' evs. destruct (existsb _ d);
    [destruct (os_remove_error env p)|]; intros H; inversion H; reflexivity.
Qed.

Lemma emits_mimetypes_guess_type P env p :
  emits_only P (mimetypes_guess_type env p).
Proof. destruct p; simpl; [apply emits_ret | apply emits_raise]. Qed.

Lemma emits_iterdir P dir : emits_only P (iterdir dir).
Proof.
  intros d r d' evs. unfold iterdir.
  destruct (existsb _ d); intros H; inversion H; reflexivity.
Qed.

Lemma emits_time_sleep P n :
  P (Sleep n) = true -> emits_only P (time_sleep n).
Proof.
  intros H. unfold time_sleep.
  destruct (_ || _); [apply emits_raise|].
  destruct (n <? 0)%Z; [apply emits_raise | now apply emits_emit].
Qed.

Ltac emits :=
  repeat first
    [ apply emits_ret
    | apply emits_raise
    | apply emits_os_path_exists
    | apply emits_os_path_basename
    | apply emits_os_remove
    | apply emits_mimetypes_guess_type
    | apply emits_iterdir
    | apply emits_emit; reflexivity
    | apply emits_call; reflexivity
    | apply emits_log; reflexivity
    | apply emits_time_sleep; reflexivity
    | apply emits_bind; [|intros ?]
    | apply emits_try_except; [|intros ?]
    | apply emits_for_each; intros ?
    | assumption
    | solve [auto]
    | match goal with
      | |- emits_only _ (match ?x with _ => _ end) => destruct x
      | |- emits_only _ (if ?x then _ else _) => destruct x
      | |- emits_only _ (let _ := _ in _) => cbv zeta
      end ].

Lemma forallb_negb_count P (evs : list event) :
  forallb (fun e => negb (P e)) evs = true -> count P evs = 0%nat.
Proof.
  unfold count. induction evs as [|e evs IH]; simpl; [reflexivity|].
  rewrite andb_true_iff. intros [He H]. apply negb_true_iff in He.
  rewrite He. now apply IH.
Qed.

Lemma count_app P (l1 l2 : list event) :
  count P (l1 ++ l2) = (count P l1 + count P l2)%nat.
Proof. unfold count. now rewrite filter_app, length_app. Qed.

(** ** Upload *)

Lemma S3Handler_upload_eq cfg env p d :
  S3Handler_upload cfg env (Some p) d
  = if path_exists env p d then
      let key := S3_BACKUP_KEY_PREFIX cfg ++ Path.basename p in
      match s3_upload_error env with
      | None =>
          (Ok true, d,
           [ Log S3Logger INFO (TryingToUpload (Some p));
             S3UploadFile (Some p) (S3_BUCKET_NAME cfg) key;
             Log S3Logger INFO (Uploaded (Some key));
             Log S3Logger INFO (UploadStatus true) ])
      | Some msg =>
          (Ok false, d,
           [ Log S3Logger INFO (TryingToUpload (Some p));
             S3UploadFile (Some p) (S3_BUCKET_NAME cfg) key;
             Log S3Logger WARNING (FailedToUpload (ExternalError msg));
             Log S3Logger INFO (UploadStatus false) ])
      end
    else (Ok false, d, [Log S3Logger WARNING (CannotUpload (Some p))]).
Proof.
  unfold S3Handler_upload, bind, try_except, call. simpl.
  destruct (path_exists env p d); simpl; [|reflexivity].
  destruct (s3_upload_error env); reflexivity.
Qed.

(** X1.  [S3Handler.upload] of a path never raises, whatever boto3 does: it
    returns [True] exactly when the file exists ([os.path.exists] holds of
    the path) and [upload_file] has returned.  When the file exists it
    calls [upload_file] once, under the key prefix followed by the base
    name of the path, and it makes no other call to the destination; when
    the file does not exist it makes none.  The local file system is left
    as it was. *)
Theorem S3_upload_returns_a_status :
  forall cfg env p d,
  exists evs,
    S3Handler_upload cfg env (Some p) d
    = (Ok (path_exists env p d
           && match s3_upload_error env with
              | None => true
              | Some _ => false
              end),
       d, evs)
    /\ filter is_destination_call evs
       = if path_exists env p d
         then [ S3UploadFile (Some p) (S3_BUCKET_NAME cfg)
                  (S3_BACKUP_KEY_PREFIX cfg ++ Path.basename p) ]
         else [].
Proof.
  intros cfg env p d. rewrite S3Handler_upload_eq.
  destruct (path_exists env p d); cbv zeta.
  - destruct (s3_upload_error env); eexists; split; reflexivity.
  - eexists; split; reflexivity.
Qed.




(** ** Purge *)

(** X3.  A purge that has nothing to delete only lists: when the listing
    comes without entries (no ['Contents'] key for S3, no ['files'] key
    for Drive) or holds at most [MAX_BACKUP_FILES] entries, the purge makes
    its listing call, deletes nothing, logs nothing and returns. *)
Theorem purge_below_threshold_only_lists :
  forall cfg env d,
    ((s3_list_result env = inr None \/
      exists files,
        s3_list_result env = inr (Some files) /\
        (Py.len files <= MAX_BACKUP_FILES cfg)%Z) ->
     S3Handler_purge cfg env d = (Ok tt, d, [listing_call cfg s3])) /\
    ((gdrive_list_result env = inr None \/
      exists files,
        gdrive_list_result env = inr (Some files) /\
        (Py.len files <= MAX_BACKUP_FILES cfg)%Z) ->
     GDriveHandler_purge cfg env d = (Ok tt, d, [listing_call cfg gdrive])).
Proof.
  intros cfg env d. split.
  - intros [H|(files & H & Hlen)]; rewrite S3Handler_purge_eq, H;
      [reflexivity|].
    unfold S3_files_to_delete. cbv zeta.
    unfold Py.len in *. rewrite sorted_length.
    destruct (Z.gtb_spec (Z.of_nat (length files)) (MAX_BACKUP_FILES cfg));
      [lia | reflexivity].
  - intros [H|(files & H & Hlen)]; rewrite GDriveHandler_purge_eq, H.
    + unfold GDrive_files_to_delete, Py.slice_from.
      rewrite skipn_nil. destruct (_ >? _)%Z; reflexivity.
    + unfold GDrive_files_to_delete, Py.len in *.
      destruct (Z.gtb_spec (Z.of_nat (length files)) (MAX_BACKUP_FILES cfg));
        [lia | reflexivity].
Qed.

Lemma purge_below_threshold_only_lists_witness :
  (exists files,
     s3_list_result (Bench.world (inr accepted_answer) None None)
     = inr (Some files) /\
     (Py.len files <= MAX_BACKUP_FILES (Bench.config 3))%Z) /\
  (exists files,
     gdrive_list_result (Bench.world (inr accepted_answer) None None)
     = inr (Some files) /\
     (Py.len files <= MAX_BACKUP_FILES (Bench.config 3))%Z) /\
  S3Handler_purge (Bench.config 3)
    (Bench.world (inr accepted_answer) None None) Bench.home_with_archive
  = (Ok tt, Bench.home_with_archive, [listing_call (Bench.config 3) s3]) /\
  GDriveHandler_purge (Bench.config 3)
    (Bench.world (inr accepted_answer) None None) Bench.home_with_archive
  = (Ok tt, Bench.home_with_archive, [listing_call (Bench.config 3) gdrive]).
Proof.
  assert (HS : exists files,
             s3_list_result (Bench.world (inr accepted_answer) None None)
             = inr (Some files) /\
             (Py.len files <= MAX_BACKUP_FILES (Bench.config 3))%Z)
    by (exists Bench.bucket; split; [reflexivity | vm_compute; discriminate]).
  assert (HG : exists files,
             gdrive_list_result (Bench.world (inr accepted_answer) None None)
             = inr (Some files) /\
             (Py.len files <= MAX_BACKUP_FILES (Bench.config 3))%Z)
    by (exists Bench.folder; split; [reflexivity | vm_compute; discriminate]).
  destruct (purge_below_threshold_only_lists (Bench.config 3)
              (Bench.world (inr accepted_answer) None None)
              Bench.home_with_archive) as [H1 H2].
  split; [exact HS|]. split; [exact HG|]. split.
  - apply H1. right. exact HS.
  - apply H2. right. exact HG.
Defined.

Lemma prefix_of_nil {A} (l : list A) : prefix_of [] l.
Proof. now exists l. Qed.

Lemma prefix_of_cons {A} (x : A) l1 l2 :
  prefix_of l1 l2 -> prefix_of (x :: l1) (x :: l2).
Proof. intros [rest ->]. now exists rest. Qed.

Lemma prefix_of_incl {A} (l1 l2 : list A) : prefix_of l1 l2 -> incl l1 l2.
Proof. intros [rest ->]. now apply incl_appl, incl_refl. Qed.

Lemma S3_deletion_loop cfg env l d r d' evs :
  for_each l (S3_delete cfg env) d = (r, d', evs) ->
  prefix_of (deletions evs) (map Key l).
Proof.
  revert evs. induction l as [|x l IH]; intros evs; simpl.
  - intros H; inversion H. apply prefix_of_nil.
  - destruct (s3_delete_error env (Key x)) as [msg|] eqn:E.
    + rewrite (bind_raise _ _ _ _ _ _ (S3_delete_raises cfg env x d msg E)).
      intros H; inversion H. simpl. apply prefix_of_cons, prefix_of_nil.
    + rewrite (bind_ok _ _ _ _ _ _ (S3_delete_ok cfg env x d E)).
      destruct (for_each l (S3_delete cfg env) d) as [[r1 d1] evs1] eqn:El.
      simpl. intros H; inversion H. subst.
      apply prefix_of_cons. now apply IH.
Qed.

Lemma GDrive_deletion_loop env l d r d' evs :
  for_each l (GDrive_delete env) d = (r, d', evs) ->
  prefix_of (deletions evs) (map file_id l).
Proof.
  revert evs. induction l as [|x l IH]; intros evs; simpl.
  - intros H; inversion H. apply prefix_of_nil.
  - destruct (gdrive_delete_error env (file_id x)) as [msg|] eqn:E.
    + rewrite (bind_raise _ _ _ _ _ _ (GDrive_delete_raises env x d msg E)).
      intros H; inversion H. simpl. apply prefix_of_cons, prefix_of_nil.
    + rewrite (bind_ok _ _ _ _ _ _ (GDrive_delete_ok env x d E)).
      destruct (for_each l (GDrive_delete env) d) as [[r1 d1] evs1] eqn:El.
      simpl. intros H; inversion H. subst.
      apply prefix_of_cons. now apply IH.
Qed.

Lemma In_firstn {A} (x : A) n l : In x (firstn n l) -> In x l.
Proof.
  intros H. rewrite <- (firstn_skipn n l). apply in_or_app. now left.
Qed.

Lemma In_skipn {A} (x : A) n l : In x (skipn n l) -> In x l.
Proof.
  intros H. rewrite <- (firstn_skipn n l). apply in_or_app. now right.
Qed.

Lemma S3_files_to_delete_incl max_kept files :
  incl (S3_files_to_delete max_kept files) files.
Proof.
  unfold S3_files_to_delete. cbv zeta. intros x Hx.
  destruct (_ >? _)%Z; [|contradiction].
  unfold Py.slice_to in Hx. apply In_firstn in Hx.
  eapply Permutation_in; [apply sorted_Permutation | exact Hx].
Qed.

Lemma GDrive_files_to_delete_incl max_kept files :
  incl (GDrive_files_to_delete max_kept files) files.
Proof.
  unfold GDrive_files_to_delete. intros x Hx.
  destruct (_ >? _)%Z; [|contradiction].
  unfold Py.slice_from in Hx. now apply In_skipn in Hx.
Qed.

(** X4.  However a purge ends, with or without an exception, the delete
    calls it has made are the start of its selection, in order, each entry
    once; so a purge deletes nothing but keys (file ids) of the listing it
    has received. *)
Theorem purge_deletes_listed_entries_only :
  forall cfg env d,
    (forall files r d' evs,
       s3_list_result env = inr (Some files) ->
       S3Handler_purge cfg env d = (r, d', evs) ->
       prefix_of (deletions evs)
         (map Key (S3_files_to_delete (MAX_BACKUP_FILES cfg) files))
       /\ incl (deletions evs) (map Key files)) /\
    (forall files r d' evs,
       gdrive_list_result env = inr (Some files) ->
       GDriveHandler_purge cfg env d = (r, d', evs) ->
       prefix_of (deletions evs)
         (map file_id (GDrive_files_to_delete (MAX_BACKUP_FILES cfg) files))
       /\ incl (deletions evs) (map file_id files)).
Proof.
  intros cfg env d. split.
  - intros files r d' evs Hl Hp.
    rewrite S3Handler_purge_eq, Hl in Hp.
    destruct (for_each _ _ d) as [[r1 d1] evs1] eqn:E.
    simpl in Hp. inversion Hp; subst. simpl.
    apply S3_deletion_loop in E. split; [exact E|].
    eapply incl_tran; [apply prefix_of_incl, E|].
    apply incl_map, S3_files_to_delete_incl.
  - intros files r d' evs Hl Hp.
    rewrite GDriveHandler_purge_eq, Hl in Hp.
    destruct (for_each _ _ d) as [[r1 d1] evs1] eqn:E.
    simpl in Hp. inversion Hp; subst. simpl.
    apply GDrive_deletion_loop in E. split; [exact E|].
    eapply incl_tran; [apply prefix_of_incl, E|].
    apply incl_map, GDrive_files_to_delete_incl.
Qed.

Lemma purge_deletes_listed_entries_only_witness :
  exists evs evs',
    S3Handler_purge (Bench.config 0)
      (Bench.world (inr accepted_answer) None (Some "cpanel/new.tar.gz"))
      Bench.home_with_archive
    = (Raise (ExternalError "AccessDenied"), Bench.home_with_archive, evs)
    /\ GDriveHandler_purge (Bench.config 1)
         (Bench.world (inr accepted_answer) None None)
         Bench.home_with_archive
       = (Ok tt, Bench.home_with_archive, evs')
    /\ incl (deletions evs) (map Key Bench.bucket)
    /\ incl (deletions evs') (map file_id Bench.folder).
Proof.
  eexists _, _.
  split; [vm_compute; reflexivity|]. split; [vm_compute; reflexivity|].
  split.
  - apply (proj1 (purge_deletes_listed_entries_only (Bench.config 0)
             (Bench.world (inr accepted_answer) None
                (Some "cpanel/new.tar.gz")) Bench.home_with_archive)
             Bench.bucket _ _ _ eq_refl eq_refl).
  - apply (proj2 (purge_deletes_listed_entries_only (Bench.config 1)
             (Bench.world (inr accepted_answer) None None)
             Bench.home_with_archive)
             Bench.folder _ _ _ eq_refl eq_refl).
Defined.

Lemma S3_files_to_delete_length max_kept files :
  (0 <= max_kept)%Z ->
  (Py.len files - Py.len (S3_files_to_delete max_kept files)
   = Z.min (Py.len files) max_kept)%Z.
Proof.
  intros H0.
  destruct (S3_retention Z.le max_kept files H0 (fun a b H => H))
    as [Hle Hgt].
  unfold Py.len in *. rewrite sorted_length in *.
  destruct (Z_le_gt_dec (Z.of_nat (length files)) max_kept) as [H|H].
  - rewrite (Hle H). simpl. lia.
  - destruct (Hgt H) as [Hlen _]. lia.
Qed.

Lemma GDrive_files_to_delete_length max_kept files :
  (0 <= max_kept)%Z ->
  (Py.len files - Py.len (GDrive_files_to_delete max_kept files)
   = Z.min (Py.len files) max_kept)%Z.
Proof.
  intros H0. unfold GDrive_files_to_delete, Py.len, Py.slice_from.
  destruct (Z.gtb_spec (Z.of_nat (length files)) max_kept) as [H|H].
  - rewrite clamp_start by lia. rewrite length_skipn. lia.
  - simpl. lia.
Qed.

(** X5.  When the retention count is not negative and no deletion fails, a
    purge returns and leaves [min(len, MAX_BACKUP_FILES)] of the [len]
    listed entries without a delete call: at most [MAX_BACKUP_FILES]
    remain, and no more is deleted than the excess. *)
Theorem purge_leaves_max_kept :
  forall cfg env d,
    (0 <= MAX_BACKUP_FILES cfg)%Z ->
    (forall files,
       s3_list_result env = inr (Some files) ->
       (forall k, s3_delete_error env k = None) ->
       exists evs,
         S3Handler_purge cfg env d = (Ok tt, d, evs) /\
         (Py.len files - Py.len (deletions evs)
          = Z.min (Py.len files) (MAX_BACKUP_FILES cfg))%Z) /\
    (forall files,
       gdrive_list_result env = inr (Some files) ->
       (forall k, gdrive_delete_error env k = None) ->
       exists evs,
         GDriveHandler_purge cfg env d = (Ok tt, d, evs) /\
         (Py.len files - Py.len (deletions evs)
          = Z.min (Py.len files) (MAX_BACKUP_FILES cfg))%Z).
Proof.
  intros cfg env d H0. split.
  - intros files Hl Hok. rewrite S3Handler_purge_eq, Hl.
    rewrite (for_each_all_ok _ (S3_deleted cfg))
      by (intros x _; now apply S3_delete_ok).
    eexists. split; [reflexivity|]. simpl.
    rewrite deletions_S3_deleted. unfold Py.len at 2. rewrite length_map.
    now apply S3_files_to_delete_length.
  - intros files Hl Hok. rewrite GDriveHandler_purge_eq, Hl.
    rewrite (for_each_all_ok _ GDrive_deleted)
      by (intros x _; now apply GDrive_delete_ok).
    eexists. split; [reflexivity|]. simpl.
    rewrite deletions_GDrive_deleted. unfold Py.len at 2. rewrite length_map.
    now apply GDrive_files_to_delete_length.
Qed.

Lemma purge_leaves_max_kept_witness :
  (0 <= MAX_BACKUP_FILES (Bench.config 1))%Z /\
  (exists evs,
     S3Handler_purge (Bench.config 1)
       (Bench.world (inr accepted_answer) None None) Bench.home_with_archive
     = (Ok tt, Bench.home_with_archive, evs) /\
     (Py.len Bench.bucket - Py.len (deletions evs)
      = Z.min (Py.len Bench.bucket) (MAX_BACKUP_FILES (Bench.config 1)))%Z) /\
  (exists evs,
     GDriveHandler_purge (Bench.config 1)
       (Bench.world (inr accepted_answer) None None) Bench.home_with_archive
     = (Ok tt, Bench.home_with_archive, evs) /\
     (Py.len Bench.folder - Py.len (deletions evs)
      = Z.min (Py.len Bench.folder) (MAX_BACKUP_FILES (Bench.config 1)))%Z).
Proof.
  assert (H0 : (0 <= MAX_BACKUP_FILES (Bench.config 1))%Z) by (simpl; lia).
  destruct (purge_leaves_max_kept (Bench.config 1)
              (Bench.world (inr accepted_answer) None None)
              Bench.home_with_archive H0) as [HS HG].
  split; [exact H0|]. split.
  - apply (HS Bench.bucket eq_refl (fun _ => eq_refl)).
  - apply (HG Bench.folder eq_refl (fun _ => eq_refl)).
Defined.

(** X6.  With a negative retention count [-k] the Drive purge selects the
    last [k] entries of its listing, all of them when there are fewer:
    [existing_files[MAX_BACKUP_FILES:]] counts from the end. *)
Theorem negative_count_selects_the_last_files :
  forall max_kept files,
    (max_kept < 0)%Z ->
    GDrive_files_to_delete max_kept files
    = skipn (length files - Z.to_nat (- max_kept)) files.
Proof.
  intros max_kept files H.
  unfold GDrive_files_to_delete, Py.slice_from, Py.clamp, Py.len.
  destruct (Z.gtb_spec (Z.of_nat (length files)) max_kept) as [Hgt|Hle];
    [|lia].
  destruct (Z.ltb_spec max_kept 0) as [_|Hge]; [|lia].
  f_equal. lia.
Qed.

Lemma negative_count_selects_the_last_files_witness :
  (-1 < 0)%Z /\
  GDrive_files_to_delete (-1) Bench.folder
  = [ {| file_id := "id1"; file_name := "a.tar.gz"; createdTime := 10 |} ].
Proof.
  assert (H : (-1 < 0)%Z) by lia.
  split; [exact H|].
  exact (negative_count_selects_the_last_files (-1) Bench.folder H).
Defined.

Lemma sorted_of_sorted {A} (key : A -> Z) l :
  oldest_first key l -> Py.sorted key l = l.
Proof.
  unfold oldest_first. induction 1 as [|x l Hs IH Hd]; simpl; [reflexivity|].
  rewrite IH. destruct Hd as [|y l Hxy]; simpl; [reflexivity|].
  destruct (Z.leb_spec (key x) (key y)); [reflexivity | lia].
Qed.

(** X7.  The sort of the S3 purge changes nothing in a listing that already
    runs from the oldest to the newest, objects of equal time included: it
    keeps them in the order of the listing, and the purge then selects the
    first [len - MAX_BACKUP_FILES] objects of the listing as it came. *)
Theorem sorted_listing_is_purged_in_place :
  forall max_kept files,
    oldest_first LastModified files ->
    Py.sorted LastModified files = files /\
    S3_files_to_delete max_kept files
    = if (Py.len files >? max_kept)%Z
      then Py.slice_to files (Py.len files - max_kept)%Z
      else [].
Proof.
  intros max_kept files Hs.
  pose proof (sorted_of_sorted LastModified files Hs) as E.
  split; [exact E|].
  unfold S3_files_to_delete. cbv zeta. now rewrite E.
Qed.

Lemma sorted_listing_is_purged_in_place_witness :
  oldest_first LastModified Bench.twins /\
  Py.sorted LastModified Bench.twins = Bench.twins /\
  S3_files_to_delete 1 Bench.twins
  = [ {| Key := "cpanel/a.tar.gz"; LastModified := 5 |} ].
Proof.
  assert (Hs : oldest_first LastModified Bench.twins)
    by (unfold oldest_first, Bench.twins; repeat constructor; simpl; lia).
  split; [exact Hs|].
  exact (sorted_listing_is_purged_in_place 1 Bench.twins Hs).
Defined.

(** ** The locator *)




Lemma emits_run_backup cfg env :
  emits_only (fun e => negb (is_destination_call e)) (run_backup cfg env).
Proof.
  unfold run_backup, initiate_full_backup, get_backup_file. emits.
Qed.

Lemma get_backup_file_without_home cfg d :
  ~ In (backup_directory cfg) d ->
  get_backup_file cfg d
  = (Raise FileNotFoundError, d,
     [Log AppLogger INFO (LookingForBackupFile (backup_directory cfg))]).
Proof.
  intros Hdir. unfold get_backup_file, log. rewrite bind_emit.
  unfold bind, iterdir.
  destruct (existsb (String.eqb (backup_directory cfg)) d) eqn:E;
    [|reflexivity].
  apply existsb_eqb_In in E. contradiction.
Qed.

(** What [time.sleep] does, by the delay. *)
Lemma time_sleep_cases n d :
  ((0 <= n <= PyTime_MAX_SECONDS)%Z /\
   time_sleep n d = (Ok tt, d, [Sleep n])) \/
  ((- PyTime_MAX_SECONDS <= n < 0)%Z /\
   time_sleep n d = (Raise ValueError, d, [])) \/
  ((n < - PyTime_MAX_SECONDS \/ PyTime_MAX_SECONDS < n)%Z /\
   time_sleep n d = (Raise OverflowError, d, [])).
Proof.
  unfold time_sleep.
  destruct (Z.ltb_spec n (- PyTime_MAX_SECONDS));
    destruct (Z.ltb_spec PyTime_MAX_SECONDS n);
    destruct (Z.ltb_spec n 0); cbn [orb];
    unfold PyTime_MAX_SECONDS in *;
    first [ left; split; [lia | reflexivity]
          | right; left; split; [lia | reflexivity]
          | right; right; split; [lia | reflexivity] ].
Qed.

Lemma run_backup_without_home cfg env d r d' evs :
  ~ In (backup_directory cfg) d ->
  run_backup cfg env d = (r, d', evs) ->
  exists e, r = Raise e.
Proof.
  intros Hdir. unfold run_backup. unfold bind at 1.
  destruct (initiate_full_backup cfg env d) as [[[[]|e] d1] evs1] eqn:E1;
    [|intros H; inversion H; eauto].
  apply keeps_initiate_full_backup in E1 as ->.
  unfold log. rewrite bind_emit.
  destruct (time_sleep_cases (BACKUP_CHECK_DELAY cfg) d)
    as [[_ Hs]|[[_ Hs]|[_ Hs]]].
  - rewrite (bind_ok _ _ _ _ _ _ Hs).
    rewrite (bind_raise _ _ _ _ _ _ (get_backup_file_without_home _ _ Hdir)).
    intros H; inversion H; eauto.
  - rewrite (bind_raise _ _ _ _ _ _ Hs). intros H; inversion H; eauto.
  - rewrite (bind_raise _ _ _ _ _ _ Hs). intros H; inversion H; eauto.
Qed.

(** X9.  When the home directory of the account does not exist, every run
    ends with an exception, with the local file system as it was and
    without any call to the destination. *)
Theorem run_without_home_directory_raises :
  forall cfg env t d,
    ~ In (backup_directory cfg) d ->
    exists e evs,
      main cfg env t d = (Raise e, d, evs) /\
      existsb is_destination_call evs = false.
Proof.
  intros cfg env t d Hdir.
  destruct (run_backup cfg env d) as [[r d1] evs1] eqn:E.
  destruct (run_backup_without_home _ _ _ _ _ _ Hdir E) as [e ->].
  pose proof (keeps_run_backup _ _ _ _ _ _ E) as ->.
  pose proof (emits_run_backup _ _ _ _ _ _ E) as Hev.
  assert (Hu : upto_upload cfg env t d
               = (Raise e, d,
                  Log AppLogger INFO Starting
                  :: Log AppLogger INFO (TargetIs t) :: evs1)).
  { unfold upto_upload, log. rewrite !bind_emit.
    now rewrite (bind_raise _ _ _ _ _ _ E). }
  rewrite (main_without_upload _ _ _ _ _ _ _ Hu).
  eexists _, _. split; [reflexivity|]. simpl.
  destruct (existsb is_destination_call evs1) eqn:Ex; [|reflexivity].
  apply existsb_exists in Ex. destruct Ex as (x & Hx & Hd).
  rewrite forallb_forall in Hev. specialize (Hev x Hx).
  now rewrite Hd in Hev.
Qed.

Lemma run_without_home_directory_raises_witness :
  ~ In (backup_directory (Bench.config 1)) ["/home/other"] /\
  exists e evs,
    main (Bench.config 1) (Bench.world (inr accepted_answer) None None) s3
      ["/home/other"] = (Raise e, ["/home/other"], evs) /\
    existsb is_destination_call evs = false.
Proof.
  assert (H : ~ In (backup_directory (Bench.config 1)) ["/home/other"])
    by (simpl; intros [E|[]]; discriminate E).
  split; [exact H|].
  exact (run_without_home_directory_raises (Bench.config 1)
           (Bench.world (inr accepted_answer) None None) s3
           ["/home/other"] H).
Defined.

(** ** The pattern *)

Lemma append_assoc (a b c : string) : (a ++ b) ++ c = a ++ (b ++ c).
Proof. induction a as [|x a IH]; simpl; [reflexivity | now rewrite IH]. Qed.

Lemma length_append (a b : string) :
  String.length (a ++ b) = (String.length a + String.length b)%nat.
Proof. induction a as [|x a IH]; simpl; [reflexivity | now rewrite IH]. Qed.

(** A literal takes itself. *)
Lemma matches_lit p s rest :
  In rest (Re.matches (Re.lit p) s) -> s = p ++ rest.
Proof.
  revert s. induction p as [|c p IH]; intros s; simpl.
  - intros [<-|[]]. reflexivity.
  - rewrite in_flat_map. intros (mid & Hmid & Hrest).
    destruct s as [|d s]; [contradiction|].
    destruct (Ascii.eqb_spec c d) as [<-|]; [|contradiction].
    destruct Hmid as [<-|[]]. now rewrite (IH _ Hrest).
Qed.

Lemma rep_takes step m M lo hi :
  takes m M step -> takes (lo * m) (hi * M) (Re.rep step lo hi).
Proof.
  intros Hstep. revert lo.
  induction hi as [|hi IH]; intros lo s rest; simpl.
  - destruct lo; simpl; [|contradiction].
    intros [<-|[]]. exists "". simpl. split; [reflexivity | lia].
  - rewrite in_app_iff, in_flat_map. intros [(mid & Hmid & Hrest)|H].
    + destruct (Hstep _ _ Hmid) as (t1 & -> & H1).
      destruct (IH _ _ _ Hrest) as (t2 & -> & H2).
      exists (t1 ++ t2). rewrite append_assoc, length_append.
      split; [reflexivity|]. destruct lo; simpl in *; lia.
    + destruct lo; simpl in H; [|contradiction].
      destruct H as [<-|[]]. exists "". simpl. split; [reflexivity | lia].
Qed.

Lemma matches_takes r : takes (min_len r) (max_len r) (Re.matches r).
Proof.
  induction r as [|c| |r1 IH1 r2 IH2|r IH lo hi]; intros s rest; simpl.
  - intros [<-|[]]. exists "". simpl. split; [reflexivity | lia].
  - destruct s as [|d s]; [contradiction|].
    destruct (c =? d)%char; [|contradiction].
    intros [<-|[]]. exists (String d ""). simpl. split; [reflexivity | lia].
  - destruct s as [|d s]; [contradiction|].
    destruct (Re.is_digit d); [|contradiction].
    intros [<-|[]]. exists (String d ""). simpl. split; [reflexivity | lia].
  - rewrite in_flat_map. intros (mid & Hmid & Hrest).
    destruct (IH1 _ _ Hmid) as (t1 & -> & H1).
    destruct (IH2 _ _ Hrest) as (t2 & -> & H2).
    exists (t1 ++ t2). rewrite append_assoc, length_append.
    split; [reflexivity | lia].
  - now apply rep_takes.
Qed.

Lemma matches_seq_app l1 l2 s rest :
  In rest (Re.matches (Re.seq (l1 ++ l2)) s) ->
  exists mid,
    In mid (Re.matches (Re.seq l1) s) /\
    In rest (Re.matches (Re.seq l2) mid).
Proof.
  revert s. induction l1 as [|r l1 IH]; intros s; simpl.
  - intros H. exists s. split; [now left | exact H].
  - rewrite in_flat_map. intros (m1 & Hm1 & H).
    destruct (IH _ H) as (mid & Hmid & Hrest).
    exists mid. split; [|exact Hrest].
    rewrite in_flat_map. now exists m1.
Qed.

Lemma pattern_shape cfg s rest :
  In rest (Re.matches (regex_pattern cfg) s) ->
  exists stamp,
    s = "backup-" ++ stamp ++ "_" ++ CPANEL_USERNAME cfg ++ ".tar.gz" ++ rest
    /\ (17 <= String.length stamp <= 19)%nat.
Proof.
  intros H.
  change (regex_pattern cfg)
    with (Re.seq ([Re.lit "backup-"]
                  ++ [ Re.digits 1 2; Re.lit "."; Re.digits 1 2; Re.lit ".";
                       Re.digits 4 4; Re.lit "_"; Re.digits 2 2; Re.lit "-";
                       Re.digits 2 2; Re.lit "-"; Re.digits 2 2 ]
                  ++ [Re.lit "_"; Re.lit (CPANEL_USERNAME cfg);
                      Re.lit ".tar.gz"])%list) in H.
  apply matches_seq_app in H. destruct H as (m1 & H1 & H).
  apply matches_seq_app in H. destruct H as (m2 & H2 & H3).
  fold timestamp_pattern in H2.
  cbn [Re.seq Re.matches] in H1. rewrite in_flat_map in H1.
  destruct H1 as (m1' & H1 & [<-|[]]).
  apply matches_lit in H1. subst s.
  apply matches_takes in H2. destruct H2 as (stamp & -> & Hlen).
  change (min_len timestamp_pattern) with 17%nat in Hlen.
  change (max_len timestamp_pattern) with 19%nat in Hlen.
  cbn [Re.seq] in H3.
  change (Re.matches (Re.Cat ?a ?b) ?x)
    with (flat_map (Re.matches b) (Re.matches a x)) in H3.
  rewrite in_flat_map in H3. destruct H3 as (m3 & Hu & H3).
  apply matches_lit in Hu. subst m2.
  change (Re.matches (Re.Cat ?a ?b) ?x)
    with (flat_map (Re.matches b) (Re.matches a x)) in H3.
  rewrite in_flat_map in H3. destruct H3 as (m4 & Hn & H3).
  apply matches_lit in Hn. subst m3.
  change (Re.matches (Re.Cat ?a ?b) ?x)
    with (flat_map (Re.matches b) (Re.matches a x)) in H3.
  rewrite in_flat_map in H3. destruct H3 as (m5 & Ht & [<-|[]]).
  apply matches_lit in Ht. subst m4.
  exists stamp. split; [reflexivity | exact Hlen].
Qed.

(** X10.  A file the locator accepts is called ["backup-"], then a
    timestamp of 17 to 19 characters, then ["_"], the user name of this
    account and [".tar.gz"], then anything: the name of another account in
    that place is not accepted, and nothing may come before ["backup-"]. *)
Theorem accepted_names_carry_the_user_name :
  forall cfg f,
    is_backup_file cfg f = true ->
    exists stamp rest,
      Path.basename f
      = "backup-" ++ stamp ++ "_" ++ CPANEL_USERNAME cfg ++ ".tar.gz" ++ rest
      /\ (17 <= String.length stamp <= 19)%nat.
Proof.
  intros cfg f H. unfold is_backup_file, Re.match_ in H.
  destruct (Re.matches (regex_pattern cfg) (Path.basename f))
    as [|rest l] eqn:E; [discriminate H|].
  destruct (pattern_shape cfg (Path.basename f) rest) as (stamp & Hs & Hl).
  { rewrite E. now left. }
  now exists stamp, rest.
Qed.

Lemma accepted_names_carry_the_user_name_witness :
  is_backup_file (Bench.config 1) Bench.archive = true /\
  exists stamp rest,
    Path.basename Bench.archive
    = "backup-" ++ stamp ++ "_" ++ CPANEL_USERNAME (Bench.config 1)
                ++ ".tar.gz" ++ rest
    /\ (17 <= String.length stamp <= 19)%nat.
Proof.
  assert (H : is_backup_file (Bench.config 1) Bench.archive = true)
    by (vm_compute; reflexivity).
  split; [exact H|].
  exact (accepted_names_carry_the_user_name (Bench.config 1)
           Bench.archive H).
Defined.

(** ** The driver *)

Lemma main_driver cfg env t d : main cfg env t d = driver cfg env t d.
Proof.
  unfold main, driver, log. rewrite !bind_emit. f_equal. f_equal.
  apply bind_ext; intros bf d1.
  destruct t; unfold handler_init, upload_of, purge_of, cleanup,
    GDriveHandler, S3Handler.
  - rewrite !bind_assoc. apply bind_ext; intros [] d2.
    rewrite !bind_ret. cbn [upload purge].
    rewrite !bind_assoc. apply bind_ext; intros b d3.
    rewrite !bind_assoc. apply bind_ext; intros [] d4.
    now rewrite bind_ret.
  - rewrite !bind_assoc. apply bind_ext; intros [] d2.
    rewrite !bind_ret. cbn [upload purge].
    rewrite !bind_assoc. apply bind_ext; intros b d3.
    rewrite !bind_assoc. apply bind_ext; intros [] d4.
    now rewrite bind_ret.
Qed.

Lemma upto_upload_eq cfg env t d :
  upto_upload cfg env t d
  = (log AppLogger INFO Starting ;;
     log AppLogger INFO (TargetIs t) ;;
     backup_filename <- run_backup cfg env ;;
     handler_init cfg env t ;;
     upload_status <- upload_of cfg env t backup_filename ;;
     ret (backup_filename, upload_status)) d.
Proof.
  unfold upto_upload, log. rewrite !bind_emit. f_equal. f_equal.
  apply bind_ext; intros bf d1.
  destruct t; unfold new_handler, handler_init, upload_of,
    GDriveHandler, S3Handler.
  - rewrite !bind_assoc. apply bind_ext; intros [] d2.
    now rewrite !bind_ret.
  - rewrite !bind_assoc. apply bind_ext; intros [] d2.
    now rewrite !bind_ret.
Qed.

Lemma emits_only_ext {A} P (c c' : M A) :
  (forall d, c d = c' d) -> emits_only P c' -> emits_only P c.
Proof. intros E H d r d' evs Hc. rewrite E in Hc. exact (H _ _ _ _ Hc). Qed.

Lemma initiate_full_backup_eq cfg env d :
  exists r logged,
    initiate_full_backup cfg env d
    = (r, d,
       (Log AppLogger INFO InitializingFullBackup
        :: HttpPost
             (CPANEL_URL cfg ++ "/execute/Backup/fullbackup_to_homedir")
             ("cpanel " ++ CPANEL_USERNAME cfg ++ ":" ++ CPANEL_API_TOKEN cfg)
             (BACKUP_DESTINATION_EMAIL cfg) "include"
        :: logged))
    /\ forallb is_log logged = true
    /\ match trigger_exception env with
       | Some e => r = Raise e /\ logged = []
       | None => r = Ok tt
       end.
Proof.
  unfold initiate_full_backup, trigger_exception, log. rewrite !bind_emit.
  destruct (post_result env) as [msg|[code decoded]].
  - eexists _, _. repeat split.
  - destruct (negb (code =? 200)%Z).
    + eexists _, _. repeat split.
    + destruct decoded as [[items|]|];
        try solve [eexists _, _; repeat split].
      destruct (ne_1 (dict_get items "status")); eexists _, _; repeat split.
Qed.

(** X11.  An exception of the trigger ends the run at once.  When
    [requests.post] raises, or the API answers 200 with a body that is not
    JSON or not a JSON object, the run ends with that exception right after
    the request: it has not waited, looked for a file, or called the
    destination, and the local file system is as it was.  An answer of
    another status is never decoded, so its body cannot raise. *)
Theorem trigger_exception_ends_the_run :
  forall cfg env t d,
    match trigger_exception env with
    | Some e => main cfg env t d = (Raise e, d, trigger_events cfg t)
    | None =>
        exists lvl m,
          initiate_full_backup cfg env d
          = (Ok tt, d,
             [ Log AppLogger INFO InitializingFullBackup;
               HttpPost
                 (CPANEL_URL cfg ++ "/execute/Backup/fullbackup_to_homedir")
                 ("cpanel " ++ CPANEL_USERNAME cfg ++ ":"
                            ++ CPANEL_API_TOKEN cfg)
                 (BACKUP_DESTINATION_EMAIL cfg) "include";
               Log AppLogger lvl m ])
    end.
Proof.
  intros cfg env t d. rewrite main_after_trigger.
  unfold initiate_full_backup, trigger_exception, log. rewrite !bind_emit.
  destruct (post_result env) as [msg|[code decoded]].
  - reflexivity.
  - destruct (negb (code =? 200)%Z).
    + eexists _, _. reflexivity.
    + destruct decoded as [[items|]|]; try reflexivity.
      destruct (ne_1 (dict_get items "status")); eexists _, _; reflexivity.
Qed.

Lemma main_steps cfg env t d :
  main cfg env t d
  = after [Log AppLogger INFO Starting; Log AppLogger INFO (TargetIs t)]
      (bind (initiate_full_backup cfg env)
         (fun _ =>
            bind (log AppLogger INFO (WaitingFor (BACKUP_CHECK_DELAY cfg)))
              (fun _ =>
                 bind (time_sleep (BACKUP_CHECK_DELAY cfg))
                   (fun _ => after_sleep cfg env t))) d).
Proof.
  rewrite main_driver. unfold driver, run_backup, after_sleep, log.
  rewrite !bind_emit, after_after. simpl. f_equal.
  rewrite bind_assoc. apply bind_ext; intros [] d1.
  rewrite bind_assoc. apply bind_ext; intros [] d2.
  now rewrite bind_assoc.
Qed.

Lemma emits_next_chunks P env statuses :
  P GDriveNextChunk = true ->
  (forall pct, P (Log GDriveLogger INFO (UploadedPercent pct)) = true) ->
  emits_only P (next_chunks env statuses).
Proof.
  intros H1 H2. induction statuses as [|st l IH]; simpl.
  - apply emits_bind; [now apply emits_emit | intros _].
    destruct (gdrive_last_chunk env) as [msg|[[pct|] id]];
      [apply emits_raise | |]; (apply emits_bind; [|intros _; apply emits_ret]).
    + now apply emits_log.
    + apply emits_ret.
  - apply emits_bind; [now apply emits_emit | intros _].
    apply emits_bind; [|intros _; exact IH].
    destruct st; [now apply emits_log | apply emits_ret].
Qed.

Lemma emits_after_sleep cfg env t :
  emits_only (fun e => negb (is_post_or_sleep e)) (after_sleep cfg env t).
Proof.
  pose proof (emits_next_chunks (fun e => negb (is_post_or_sleep e)) env)
    as Hn.
  unfold after_sleep, get_backup_file, handler_init, upload_of, purge_of,
    cleanup, S3Handler_upload, GDriveHandler_upload, S3Handler_purge,
    GDriveHandler_purge.
  destruct t; emits.
Qed.

Lemma filter_logs P (l : list event) :
  (forall who lvl m, P (Log who lvl m) = false) ->
  forallb is_log l = true -> filter P l = [].
Proof.
  intros HP. induction l as [|e l IH]; simpl; [reflexivity|].
  rewrite andb_true_iff. intros [He Hl].
  destruct e; try discriminate He. now rewrite HP, IH.
Qed.

Lemma filter_none P (l : list event) :
  forallb (fun e => negb (P e)) l = true -> filter P l = [].
Proof.
  induction l as [|e l IH]; simpl; [reflexivity|].
  rewrite andb_true_iff. intros [He Hl].
  apply negb_true_iff in He. now rewrite He, IH.
Qed.

(** After the set-up of its logger, the driver posts the backup request
    once, and waits at most once, after the request. *)
Lemma main_posts_once cfg env t d :
  filter is_post_or_sleep (events_of (main cfg env t d)) = [the_post cfg] \/
  filter is_post_or_sleep (events_of (main cfg env t d))
  = [the_post cfg; Sleep (BACKUP_CHECK_DELAY cfg)].
Proof.
  rewrite main_steps.
  destruct (initiate_full_backup_eq cfg env d) as (r & logged & E & Hl & _).
  assert (Hlogged : filter is_post_or_sleep logged = [])
    by (apply filter_logs; [reflexivity | exact Hl]).
  destruct r as [[]|e];
    [rewrite (bind_ok _ _ _ _ _ _ E) | rewrite (bind_raise _ _ _ _ _ _ E)].
  - unfold log. rewrite bind_emit.
    destruct (time_sleep_cases (BACKUP_CHECK_DELAY cfg) d)
      as [[_ Hs]|[[_ Hs]|[_ Hs]]].
    + right. rewrite (bind_ok _ _ _ _ _ _ Hs).
      destruct (after_sleep cfg env t d) as [[r' d'] evs'] eqn:Ea.
      apply emits_after_sleep in Ea. apply filter_none in Ea.
      unfold events_of. simpl. fold (the_post cfg).
      rewrite filter_app, Hlogged. simpl. now rewrite Ea.
    + left. rewrite (bind_raise _ _ _ _ _ _ Hs).
      unfold events_of. simpl. fold (the_post cfg).
      rewrite filter_app, Hlogged. reflexivity.
    + left. rewrite (bind_raise _ _ _ _ _ _ Hs).
      unfold events_of. simpl. fold (the_post cfg).
      rewrite filter_app, Hlogged. reflexivity.
  - left. unfold events_of. simpl. fold (the_post cfg).
    now rewrite Hlogged.
Qed.

(** X13.  With a negative [BACKUP_CHECK_DELAY], a run whose trigger returns
    ends in the exception of [time.sleep]: [ValueError], or [OverflowError]
    when the delay is below the least number of seconds [time.sleep] can
    convert.  The backup has been requested, and the run has not looked for
    the file nor called the destination. *)
Theorem negative_delay_ends_the_run :
  forall cfg env t d,
    (BACKUP_CHECK_DELAY cfg < 0)%Z ->
    trigger_exception env = None ->
    exists lvl m,
      main cfg env t d
      = (Raise (if (BACKUP_CHECK_DELAY cfg <? - PyTime_MAX_SECONDS)%Z
                then OverflowError else ValueError),
         d,
         (trigger_events cfg t
          ++ [ Log AppLogger lvl m;
               Log AppLogger INFO
                 (WaitingFor (BACKUP_CHECK_DELAY cfg)) ])%list).
Proof.
  intros cfg env t d Hneg Hnone. rewrite main_steps.
  assert (Hi : exists lvl m,
             initiate_full_backup cfg env d
             = (Ok tt, d,
                [ Log AppLogger INFO InitializingFullBackup;
                  the_post cfg; Log AppLogger lvl m ])).
  { unfold initiate_full_backup, trigger_exception, log, the_post in *.
    rewrite !bind_emit.
    destruct (post_result env) as [msg|[code decoded]]; [discriminate|].
    destruct (negb (code =? 200)%Z); [eexists _, _; reflexivity|].
    destruct decoded as [[items|]|]; try discriminate.
    destruct (ne_1 (dict_get items "status")); eexists _, _; reflexivity. }
  destruct Hi as (lvl & m & Hi). exists lvl, m.
  rewrite (bind_ok _ _ _ _ _ _ Hi). unfold log. rewrite bind_emit.
  destruct (time_sleep_cases (BACKUP_CHECK_DELAY cfg) d)
    as [[Hr Hs]|[[Hr Hs]|[Hr Hs]]]; [lia| |].
  - rewrite (bind_raise _ _ _ _ _ _ Hs).
    destruct (Z.ltb_spec (BACKUP_CHECK_DELAY cfg) (- PyTime_MAX_SECONDS));
      [lia | reflexivity].
  - rewrite (bind_raise _ _ _ _ _ _ Hs).
    destruct (Z.ltb_spec (BACKUP_CHECK_DELAY cfg) (- PyTime_MAX_SECONDS));
      [reflexivity | lia].
Qed.

Lemma negative_delay_ends_the_run_witness :
  (BACKUP_CHECK_DELAY hasty_config < 0)%Z /\
  trigger_exception (Bench.world (inr accepted_answer) None None) = None /\
  exists lvl m,
    main hasty_config (Bench.world (inr accepted_answer) None None) s3
      Bench.home_with_archive
    = (Raise ValueError, Bench.home_with_archive,
       (trigger_events hasty_config s3
        ++ [ Log AppLogger lvl m;
             Log AppLogger INFO
               (WaitingFor (BACKUP_CHECK_DELAY hasty_config)) ])%list).
Proof.
  assert (H : (BACKUP_CHECK_DELAY hasty_config < 0)%Z) by (simpl; lia).
  split; [exact H|]. split; [reflexivity|].
  exact (negative_delay_ends_the_run hasty_config
           (Bench.world (inr accepted_answer) None None) s3
           Bench.home_with_archive H eq_refl).
Defined.

Lemma emits_upto_upload cfg env t :
  emits_only (fun e => negb (is_purge_call e)) (upto_upload cfg env t).
Proof.
  apply (emits_only_ext _ _ _ (upto_upload_eq cfg env t)).
  pose proof (emits_next_chunks (fun e => negb (is_purge_call e)) env) as Hn.
  unfold run_backup, initiate_full_backup, get_backup_file, handler_init,
    upload_of, S3Handler_upload, GDriveHandler_upload.
  destruct t; emits.
Qed.

Lemma emits_purge_and_cleanup cfg env t bf b :
  emits_only (fun e => negb (is_upload_call e))
    (purge_of cfg env t ;; cleanup env bf b).
Proof.
  unfold purge_of, cleanup, S3Handler_purge, GDriveHandler_purge.
  destruct t; emits.
Qed.

(** X14.  In every run the calls that send the file come before the calls
    of the purge: the events of a run split into a first part without any
    listing or deletion and a second part without any upload call.  Nothing
    is listed or deleted before [upload] has returned, and nothing is
    uploaded once the purge has begun. *)
Theorem uploads_come_before_the_purge :
  forall cfg env t d,
  exists before after_,
    events_of (main cfg env t d) = (before ++ after_)%list /\
    forallb (fun e => negb (is_purge_call e)) before = true /\
    forallb (fun e => negb (is_upload_call e)) after_ = true.
Proof.
  intros cfg env t d.
  destruct (upto_upload cfg env t d) as [[[[bf b]|e] d2] evs] eqn:E.
  - rewrite (main_after_upload _ _ _ _ _ _ _ _ E).
    destruct ((purge_of cfg env t ;; cleanup env bf b) d2)
      as [[r d3] evs'] eqn:E'.
    exists evs, evs'. repeat split.
    + exact (emits_upto_upload _ _ _ _ _ _ _ E).
    + exact (emits_purge_and_cleanup _ _ _ _ _ _ _ _ _ E').
  - rewrite (main_without_upload _ _ _ _ _ _ _ E).
    exists evs, []. repeat split.
    + unfold events_of. simpl. now rewrite app_nil_r.
    + exact (emits_upto_upload _ _ _ _ _ _ _ E).
Qed.

Lemma run_backup_found cfg env d f d1 evs :
  run_backup cfg env d = (Ok (Some f), d1, evs) ->
  In f d /\ Path.child_of (backup_directory cfg) f = true /\
  is_backup_file cfg f = true.
Proof.
  unfold run_backup. unfold bind at 1.
  destruct (initiate_full_backup cfg env d) as [[[[]|e] d0] evs0] eqn:E0;
    [|discriminate].
  apply keeps_initiate_full_backup in E0 as ->.
  unfold log. rewrite bind_emit.
  destruct (time_sleep_cases (BACKUP_CHECK_DELAY cfg) d)
    as [[_ Hs]|[[_ Hs]|[_ Hs]]];
    [rewrite (bind_ok _ _ _ _ _ _ Hs)
    |rewrite (bind_raise _ _ _ _ _ _ Hs); discriminate
    |rewrite (bind_raise _ _ _ _ _ _ Hs); discriminate].
  unfold bind at 1.
  destruct (get_backup_file cfg d) as [[[found|e] d2] evs2] eqn:Eg;
    [|discriminate].
  assert (Hfound : forall q, found = Some q ->
                   In q d /\ Path.child_of (backup_directory cfg) q = true /\
                   is_backup_file cfg q = true).
  { intros q Hq.
    destruct (existsb (String.eqb (backup_directory cfg)) d) eqn:Ed.
    - apply existsb_eqb_In in Ed.
      rewrite (get_backup_file_eq _ _ Ed) in Eg.
      inversion Eg as [[Hf Hd He]]. rewrite Hq in Hf.
      apply find_some in Hf. destruct Hf as [Hin Hacc].
      apply filter_In in Hin. destruct Hin as [Hin Hc].
      subst. split; [exact Hin|]. split; [exact Hc | exact Hacc].
    - rewrite get_backup_file_without_home in Eg; [discriminate Eg|].
      intros Hin. apply existsb_eqb_In in Hin. congruence. }
  destruct found as [q|]; cbv beta iota; rewrite bind_emit; simpl;
    intros H; inversion H; subst.
  now apply Hfound.
Qed.

Lemma upto_upload_run_backup cfg env t d bf b d2 evs :
  upto_upload cfg env t d = (Ok (bf, b), d2, evs) ->
  exists evs1, run_backup cfg env d = (Ok bf, d, evs1).
Proof.
  rewrite upto_upload_eq. unfold log. rewrite !bind_emit.
  unfold bind at 1.
  destruct (run_backup cfg env d) as [[[bf'|e] d1] evs1] eqn:E1;
    [|intros H; discriminate H].
  pose proof (keeps_run_backup _ _ _ _ _ _ E1) as ->.
  unfold bind.
  destruct (handler_init cfg env t d) as [[[[]|e] d3] evs3];
    [|intros H; discriminate H].
  destruct (upload_of cfg env t bf' d3) as [[[b'|e] d4] evs4];
    [|intros H; discriminate H].
  simpl. intros H; inversion H; subst. now exists evs1.
Qed.

(** After the set-up of its logger, the driver leaves the file system as
    it is or without one entry of the home directory that the locator has
    accepted. *)
Lemma main_removes_the_backup_file_only cfg env t d :
  fs_of (main cfg env t d) = d \/
  exists f,
    In f d /\ Path.child_of (backup_directory cfg) f = true /\
    is_backup_file cfg f = true /\
    fs_of (main cfg env t d) = removed f d.
Proof.
  destruct (upto_upload cfg env t d) as [[[[bf b]|e] d2] evs] eqn:E.
  - rewrite (main_after_upload _ _ _ _ _ _ _ _ E).
    destruct (upto_upload_inv _ _ _ _ _ _ _ _ E) as (-> & _).
    destruct (upto_upload_run_backup _ _ _ _ _ _ _ _ E) as [evs1 Hrb].
    unfold bind.
    destruct (purge_of cfg env t d) as [[[[]|e] d3] pevs] eqn:Ep;
      pose proof (keeps_purge_of _ _ _ _ _ _ _ Ep) as ->;
      [|left; reflexivity].
    destruct b; [|left; reflexivity].
    destruct bf as [f|]; [|left; reflexivity].
    destruct (run_backup_found _ _ _ _ _ _ Hrb) as (Hin & Hc & Hacc).
    destruct (os_remove_error env f) as [msg|] eqn:Er.
    + left. now rewrite (cleanup_raises _ _ _ _ Hin Er).
    + right. exists f. repeat split; try assumption.
      now rewrite (cleanup_true _ _ _ Hin Er).
  - rewrite (main_without_upload _ _ _ _ _ _ _ E).
    left. apply keeps_upto_upload in E. now subst.
Qed.




Lemma driver_before_all_done cfg env t d :
  driver cfg env t d
  = (x <- before_all_done cfg env t ;;
     log AppLogger INFO AllDone ;;
     ret x) d.
Proof.
  unfold driver, before_all_done, cleanup, log.
  rewrite !bind_assoc, !bind_emit. f_equal.
  rewrite !bind_assoc, !bind_emit. f_equal.
  rewrite bind_assoc. apply bind_ext; intros bf d1.
  rewrite bind_assoc. apply bind_ext; intros [] d2.
  rewrite bind_assoc. apply bind_ext; intros b d3.
  rewrite bind_assoc. apply bind_ext; intros [] d4.
  rewrite bind_assoc. apply bind_ext; intros [] d5.
  now rewrite bind_ret.
Qed.

Lemma emits_before_all_done cfg env t :
  emits_only (fun e => negb (is_all_done e)) (before_all_done cfg env t).
Proof.
  pose proof (emits_next_chunks (fun e => negb (is_all_done e)) env) as Hn.
  unfold before_all_done, run_backup, initiate_full_backup, get_backup_file,
    handler_init, upload_of, purge_of, S3Handler_upload, GDriveHandler_upload,
    S3Handler_purge, GDriveHandler_purge.
  destruct t; emits.
Qed.

(** X18.  The record "All done !" is the last event of every run that ends
    without an exception, including the runs whose upload has failed, and
    it is logged in no other run and at no other place. *)
Theorem all_done_marks_a_run_without_exception :
  forall cfg env t d,
  exists r d' evs,
    main cfg env t d = (r, d', evs) /\
    match r with
    | Ok _ =>
        exists evs',
          evs = (evs' ++ [Log AppLogger INFO AllDone])%list /\
          existsb is_all_done evs' = false
    | Raise _ => existsb is_all_done evs = false
    end.
Proof.
  intros cfg env t d. rewrite main_driver, driver_before_all_done.
  assert (Hnone : forall l,
             forallb (fun e => negb (is_all_done e)) l = true ->
             existsb is_all_done l = false).
  { intros l Hl. destruct (existsb is_all_done l) eqn:Ex; [|reflexivity].
    apply existsb_exists in Ex. destruct Ex as (x & Hx & Hd).
    rewrite forallb_forall in Hl. specialize (Hl x Hx).
    now rewrite Hd in Hl. }
  destruct (before_all_done cfg env t d) as [[[x|e] d1] evs1] eqn:E;
    pose proof (emits_before_all_done _ _ _ _ _ _ _ E) as Hev.
  - rewrite (bind_ok _ _ _ _ _ _ E). unfold log. rewrite bind_emit.
    eexists _, _, _. split; [reflexivity|]. simpl.
    exists evs1. split; [reflexivity | now apply Hnone].
  - rewrite (bind_raise _ _ _ _ _ _ E).
    eexists _, _, _. split; [reflexivity|]. now apply Hnone.
Qed.

(** ** The whole driver: the set-up of the loggers *)

Lemma created_In p d : In p (created p d).
Proof.
  unfold created. destruct (existsb (String.eqb p) d) eqn:E.
  - now apply existsb_eqb_In.
  - apply in_or_app. right. now left.
Qed.

Lemma created_incl p q d : In q d -> In q (created p d).
Proof.
  unfold created. destruct (existsb (String.eqb p) d); [auto|].
  intros H. apply in_or_app. now left.
Qed.

Lemma created_same p d : In p d -> created p d = d.
Proof.
  intros H. apply existsb_eqb_In in H. unfold created. now rewrite H.
Qed.

Lemma created_inv p q d : In q (created p d) -> In q d \/ q = p.
Proof.
  unfold created. destruct (existsb (String.eqb p) d); [auto|].
  intros H. apply in_app_or in H. destruct H as [H|[H|[]]]; auto.
Qed.


(** [LogHandler().get_logger(name)], case by case. *)
Lemma LogHandler_get_logger_eq env name configured d :
  LogHandler_get_logger env name configured d
  = match makedirs_error env (logs_directory env) with
    | Some msg => (Raise (OSError msg), d, [])
    | None =>
        if hasHandlers env configured name then
          (Ok configured, created (logs_directory env) d, [])
        else
          match open_error env (log_file_path env) with
          | Some msg =>
              (Raise (OSError msg), created (logs_directory env) d, [])
          | None =>
              (Ok (name :: configured),
               created (log_file_path env) (created (logs_directory env) d),
               [])
          end
    end.
Proof.
  unfold LogHandler_get_logger, LogHandler, get_logger, os_makedirs,
    RotatingFileHandler, bind, ret.
  fold (logs_directory env).
  destruct (makedirs_error env (logs_directory env)); [reflexivity|].
  cbn [after app].
  destruct (hasHandlers env configured name); cbn [negb]; [reflexivity|].
  fold (log_file_path env).
  destruct (open_error env (log_file_path env)); reflexivity.
Qed.

(** A set-up that returns has logged nothing and leaves the logging in
    place. *)
Lemma logger_setup_ok env d configured d1 evs :
  logger_setup env d = (Ok configured, d1, evs) ->
  evs = [] /\ logging_in_place env d1 /\
  (d1 = created (logs_directory env) d \/
   d1 = created (log_file_path env) (created (logs_directory env) d)).
Proof.
  unfold logger_setup, logging_in_place. rewrite LogHandler_get_logger_eq.
  destruct (makedirs_error env (logs_directory env)); [discriminate|].
  unfold hasHandlers. cbn [existsb orb].
  destruct (root_has_handlers env).
  - intros H; inversion H; subst.
    repeat split; auto using created_In.
  - destruct (open_error env (log_file_path env)); [discriminate|].
    intros H; inversion H; subst.
    repeat split; auto using created_In, created_incl.
Qed.

(** With the logging in place, setting a logger up changes nothing and
    cannot fail. *)
Lemma get_logger_in_place env d name configured :
  logging_in_place env d ->
  exists configured',
    LogHandler_get_logger env name configured d = (Ok configured', d, []).
Proof.
  intros (Hm & Hdir & Hfile). rewrite LogHandler_get_logger_eq, Hm.
  rewrite (created_same _ _ Hdir).
  destruct (hasHandlers env configured name) eqn:Eh; [eauto|].
  unfold hasHandlers in Eh. apply orb_false_iff in Eh. destruct Eh as [_ Er].
  destruct Hfile as [Hr|[Ho Hin]]; [congruence|].
  rewrite Ho, (created_same _ _ Hin). eauto.
Qed.

Lemma bind_keeps_ext {A B} (c : M A) (k k' : A -> M B) d :
  keeps_fs c -> (forall a, k a d = k' a d) -> bind c k d = bind c k' d.
Proof.
  intros Hc H. unfold bind.
  destruct (c d) as [[[a|e] d'] evs] eqn:E; [|reflexivity].
  apply Hc in E. subst d'. now rewrite H.
Qed.

(** The whole driver is the set-up of its logger followed by [main]: the
    later calls of [LogHandler().get_logger(...)], in [CpanelHandler()] and
    in the constructor of the storage handler, find the directory and the
    log file in place. *)
Lemma script_main cfg env t d :
  script cfg env t d = bind (logger_setup env) (fun _ => main cfg env t) d.
Proof.
  unfold script. fold (logger_setup env).
  destruct (logger_setup env d) as [[[configured|e] d1] evs] eqn:E;
    [|now rewrite !(bind_raise _ _ _ _ _ _ E)].
  rewrite !(bind_ok _ _ _ _ _ _ E). f_equal.
  destruct (logger_setup_ok _ _ _ _ _ E) as (_ & Hplace & _).
  unfold main, log. rewrite !bind_emit. do 2 f_equal.
  destruct (get_logger_in_place env d1 AppLogger configured Hplace)
    as (c1 & Hc).
  unfold CpanelHandler. rewrite (bind_ok _ _ _ _ _ _ Hc), after_nil.
  apply bind_keeps_ext; [apply keeps_run_backup|]. intros bf.
  destruct t.
  - destruct (get_logger_in_place env d1 GDriveLogger c1 Hplace)
      as (c2 & Hc2).
    unfold GDriveHandler_init. rewrite !bind_assoc.
    now rewrite (bind_ok _ _ _ _ _ _ Hc2), after_nil, <- !bind_assoc.
  - destruct (get_logger_in_place env d1 S3Logger c1 Hplace)
      as (c2 & Hc2).
    unfold S3Handler_init. rewrite !bind_assoc.
    now rewrite (bind_ok _ _ _ _ _ _ Hc2), after_nil, <- !bind_assoc.
Qed.

Lemma logger_setup_silent env d r d1 evs :
  logger_setup env d = (r, d1, evs) -> evs = [].
Proof.
  unfold logger_setup. rewrite LogHandler_get_logger_eq.
  destruct (makedirs_error env (logs_directory env));
    [intros H; now inversion H|].
  destruct (hasHandlers env [] AppLogger); [intros H; now inversion H|].
  destruct (open_error env (log_file_path env)); intros H; now inversion H.
Qed.

Lemma script_after_setup cfg env t d configured d1 evs :
  logger_setup env d = (Ok configured, d1, evs) ->
  script cfg env t d = main cfg env t d1.
Proof.
  intros E. rewrite script_main, (bind_ok _ _ _ _ _ _ E).
  rewrite (logger_setup_silent _ _ _ _ _ E). apply after_nil.
Qed.

(** X12.  A run posts the backup request at most once, and exactly once
    unless the set-up of the driver's logger raises: then the run ends at
    line 304, before its first log record.  A run waits at most once, for
    [BACKUP_CHECK_DELAY] seconds and after the request: neither is ever done
    again, whatever fails later. *)
Theorem one_request_and_one_wait :
  forall cfg env t d,
    match logger_setup env d with
    | (Raise e, d', _) => script cfg env t d = (Raise e, d', [])
    | (Ok _, _, _) =>
        let evs := filter is_post_or_sleep (events_of (script cfg env t d)) in
        evs = [the_post cfg] \/
        evs = [the_post cfg; Sleep (BACKUP_CHECK_DELAY cfg)]
    end.
Proof.
  intros cfg env t d.
  destruct (logger_setup env d) as [[[configured|e] d1] evs] eqn:E.
  - cbv zeta. rewrite (script_after_setup _ _ _ _ _ _ _ E).
    apply main_posts_once.
  - rewrite script_main, (bind_raise _ _ _ _ _ _ E).
    now rewrite (logger_setup_silent _ _ _ _ _ E).
Qed.

Lemma log_file_in_logs env : in_logs env (log_file_path env).
Proof.
  right. exists (APP_NAME ++ ".log").
  unfold log_file_path, logs_directory, Path.join. simpl.
  destruct ((cwd env =? "") || Path.ends_with_sep (cwd env)).
  - now rewrite append_assoc.
  - now rewrite !append_assoc.
Qed.

Lemma logger_setup_adds env d r d1 evs :
  logger_setup env d = (r, d1, evs) ->
  (forall p, In p d -> In p d1) /\
  (forall p, In p d1 -> In p d \/ in_logs env p).
Proof.
  unfold logger_setup. rewrite LogHandler_get_logger_eq.
  assert (H1 : forall p, In p (created (logs_directory env) d) ->
                         In p d \/ in_logs env p).
  { intros p Hp. apply created_inv in Hp. destruct Hp as [Hp| ->]; [now left|].
    right. now left. }
  assert (H2 : forall p,
             In p (created (log_file_path env)
                     (created (logs_directory env) d)) ->
             In p d \/ in_logs env p).
  { intros p Hp. apply created_inv in Hp.
    destruct Hp as [Hp| ->]; [now apply H1|].
    right. apply log_file_in_logs. }
  destruct (makedirs_error env (logs_directory env));
    [intros H; inversion H; subst; auto|].
  destruct (hasHandlers env [] AppLogger);
    [intros H; inversion H; subst; auto using created_incl|].
  destruct (open_error env (log_file_path env));
    intros H; inversion H; subst; auto using created_incl.
Qed.

Lemma In_removed p f d : In p d -> p <> f -> In p (removed f d).
Proof.
  intros Hp Hne. unfold removed. apply filter_In. split; [exact Hp|].
  apply negb_true_iff. apply String.eqb_neq. congruence.
Qed.

Lemma removed_incl p f d : In p (removed f d) -> In p d.
Proof. unfold removed. intros H. now apply filter_In in H. Qed.

(** X15.  Outside the directory of its logs, a run removes at most one of
    the local paths it finds, and only an entry of the home directory that
    the locator accepts; the only paths it adds are the directory of the
    logs and what is inside it.  No other local file is ever removed. *)
Theorem only_the_backup_file_is_removed :
  forall cfg env t d,
    let d' := fs_of (script cfg env t d) in
    (forall p, In p d' -> In p d \/ in_logs env p) /\
    ((forall p, In p d -> ~ in_logs env p -> In p d') \/
     exists f,
       In f d /\ Path.child_of (backup_directory cfg) f = true /\
       is_backup_file cfg f = true /\ ~ In f d' /\
       forall p, In p d -> ~ in_logs env p -> p <> f -> In p d').
Proof.
  intros cfg env t d. cbv zeta.
  destruct (logger_setup env d) as [[[configured|e] d1] evs] eqn:E;
    destruct (logger_setup_adds _ _ _ _ _ E) as [Hkept Hadded].
  - rewrite (script_after_setup _ _ _ _ _ _ _ E).
    destruct (main_removes_the_backup_file_only cfg env t d1)
      as [->|(f & Hin & Hc & Hacc & ->)].
    + split; [exact Hadded | left; intros p Hp _; now apply Hkept].
    + split; [intros p Hp; apply Hadded; now apply removed_incl in Hp|].
      destruct (in_dec string_dec f d) as [Hfd|Hfd].
      * right. exists f. repeat split; try assumption.
        -- apply not_In_removed.
        -- intros p Hp _ Hne. apply In_removed; auto.
      * left. intros p Hp _. apply In_removed; [auto|].
        intros ->. contradiction.
  - rewrite script_main, (bind_raise _ _ _ _ _ _ E). unfold fs_of. simpl.
    split; [exact Hadded | left; intros p Hp _; now apply Hkept].
Qed.





(** ** The constructor of the storage handler *)

Lemma initiate_returns cfg env d d1 evs :
  initiate_full_backup cfg env d = (Ok tt, d1, evs) ->
  d1 = d /\
  exists lvl m,
    evs = [ Log AppLogger INFO InitializingFullBackup; the_post cfg;
            Log AppLogger lvl m ].
Proof.
  unfold initiate_full_backup, log, the_post. rewrite !bind_emit.
  destruct (post_result env) as [msg|[code decoded]]; [discriminate|].
  destruct (negb (code =? 200)%Z);
    [intros H; inversion H; eauto|].
  destruct decoded as [[items|]|]; try discriminate.
  destruct (ne_1 (dict_get items "status")); intros H; inversion H; eauto.
Qed.

(** A [run_backup] that returns has requested the backup, waited and
    looked the file up, in this order, and has done nothing else but to
    log. *)
Lemma run_backup_returns cfg env d bf d1 evs :
  run_backup cfg env d = (Ok bf, d1, evs) ->
  exists lvl m,
    evs = [ Log AppLogger INFO InitializingFullBackup;
            the_post cfg;
            Log AppLogger lvl m;
            Log AppLogger INFO (WaitingFor (BACKUP_CHECK_DELAY cfg));
            Sleep (BACKUP_CHECK_DELAY cfg);
            Log AppLogger INFO (LookingForBackupFile (backup_directory cfg));
            match bf with
            | Some f => Log AppLogger INFO (BackupFileIs f)
            | None => Log AppLogger ERROR NoBackupFileFound
            end ].
Proof.
  unfold run_backup. unfold bind at 1.
  destruct (initiate_full_backup cfg env d) as [[[[]|e] d0] evs0] eqn:E0;
    [|discriminate].
  destruct (initiate_returns _ _ _ _ _ E0) as (-> & lvl & m & ->).
  unfold log. rewrite bind_emit.
  destruct (time_sleep_cases (BACKUP_CHECK_DELAY cfg) d)
    as [[_ Hs]|[[_ Hs]|[_ Hs]]];
    [rewrite (bind_ok _ _ _ _ _ _ Hs)
    |rewrite (bind_raise _ _ _ _ _ _ Hs); discriminate
    |rewrite (bind_raise _ _ _ _ _ _ Hs); discriminate].
  unfold get_backup_file, log. rewrite bind_assoc, bind_emit, bind_assoc.
  destruct (iterdir (backup_directory cfg) d) as [[[entries|e] d2] evs2] eqn:Ei;
    [rewrite (bind_ok _ _ _ _ _ _ Ei)
    |rewrite (bind_raise _ _ _ _ _ _ Ei); simpl; intros H; discriminate H].
  assert (evs2 = []) as ->.
  { unfold iterdir in Ei. destruct (existsb _ d); now inversion Ei. }
  rewrite after_nil, bind_ret.
  destruct (Py.next_or_none _ entries) as [f|];
    rewrite bind_emit; simpl; intros H; inversion H; subst;
    exists lvl, m; reflexivity.
Qed.

Lemma emits_after_handler cfg env t bf :
  emits_only (fun e => negb (is_handler_call e))
    (upload_status <- upload_of cfg env t bf ;;
     purge_of cfg env t ;;
     cleanup env bf upload_status).
Proof.
  pose proof (emits_next_chunks (fun e => negb (is_handler_call e)) env)
    as Hn.
  unfold upload_of, purge_of, cleanup, S3Handler_upload,
    GDriveHandler_upload, S3Handler_purge, GDriveHandler_purge.
  destruct t; emits.
Qed.

Lemma handler_init_eq cfg env t d :
  handler_init cfg env t d
  = match handler_error env t with
    | Some msg => (Raise (ExternalError msg), d, [handler_call cfg t])
    | None => (Ok tt, d, [handler_call cfg t])
    end.
Proof.
  destruct t; unfold handler_init, handler_error, handler_call, call;
    rewrite bind_emit.
  - destruct (gdrive_build_error env); reflexivity.
  - destruct (s3_session_error env); reflexivity.
Qed.

(** X17.  The storage handler is made right after [run_backup] has
    returned, that is after the backup has been requested, waited for and
    looked up, and at no other time: not when [run_backup] raises, and not
    again later.  When its constructor raises (the AWS profile or the Google
    credentials cannot be used), the run ends there with that exception,
    without any call to the destination and with the local file system as
    it was, the backup file still in place. *)
Theorem handler_failure_ends_the_run :
  forall cfg env t d,
    match run_backup cfg env d with
    | (Raise e, _, evs) =>
        main cfg env t d
        = (Raise e, d,
           Log AppLogger INFO Starting
           :: Log AppLogger INFO (TargetIs t) :: evs)
        /\ existsb is_handler_call evs = false
    | (Ok bf, _, evs) =>
        (exists lvl m,
           evs = [ Log AppLogger INFO InitializingFullBackup;
                   the_post cfg;
                   Log AppLogger lvl m;
                   Log AppLogger INFO (WaitingFor (BACKUP_CHECK_DELAY cfg));
                   Sleep (BACKUP_CHECK_DELAY cfg);
                   Log AppLogger INFO
                     (LookingForBackupFile (backup_directory cfg));
                   match bf with
                   | Some f => Log AppLogger INFO (BackupFileIs f)
                   | None => Log AppLogger ERROR NoBackupFileFound
                   end ]) /\
        match handler_error env t with
        | Some msg =>
            main cfg env t d
            = (Raise (ExternalError msg), d,
               (Log AppLogger INFO Starting
                :: Log AppLogger INFO (TargetIs t)
                :: evs ++ [handler_call cfg t])%list)
            /\ existsb is_destination_call (events_of (main cfg env t d))
               = false
        | None =>
            exists r d' rest,
              main cfg env t d
              = (r, d',
                 (Log AppLogger INFO Starting
                  :: Log AppLogger INFO (TargetIs t)
                  :: evs ++ handler_call cfg t :: rest)%list)
              /\ existsb is_handler_call rest = false
        end
    end.
Proof.
  intros cfg env t d.
  assert (Hnone : forall (P : event -> bool) l,
             forallb (fun e => negb (P e)) l = true ->
             existsb P l = false).
  { intros P l Hl. destruct (existsb P l) eqn:Ex; [|reflexivity].
    apply existsb_exists in Ex. destruct Ex as (x & Hx & Hd).
    rewrite forallb_forall in Hl. specialize (Hl x Hx).
    now rewrite Hd in Hl. }
  rewrite main_driver. unfold driver, log. rewrite !bind_emit.
  destruct (run_backup cfg env d) as [[[bf|e] d1] evs] eqn:E;
    pose proof (keeps_run_backup _ _ _ _ _ _ E) as ->.
  - rewrite (bind_ok _ _ _ _ _ _ E).
    destruct (run_backup_returns _ _ _ _ _ _ E) as (lvl & m & Hevs).
    split; [now exists lvl, m|].
    rewrite (bind_after _ _ _ [handler_call cfg t]
               (match handler_error env t with
                | Some msg => (Raise (ExternalError msg), d, [])
                | None => (Ok tt, d, [])
                end))
      by (rewrite handler_init_eq; now destruct (handler_error env t)).
    destruct (handler_error env t) as [msg|].
    + split; [reflexivity|].
      unfold events_of. simpl. rewrite Hevs.
      destruct bf, t; reflexivity.
    + destruct ((upload_status <- upload_of cfg env t bf ;;
                 purge_of cfg env t ;;
                 cleanup env bf upload_status) d)
        as [[r d'] rest] eqn:Er.
      exists r, d', rest. split.
      * reflexivity.
      * apply Hnone. exact (emits_after_handler _ _ _ _ _ _ _ _ Er).
  - rewrite (bind_raise _ _ _ _ _ _ E). split; [reflexivity|].
    apply Hnone.
    assert (Hrb : emits_only (fun e => negb (is_handler_call e))
                    (run_backup cfg env)).
    { unfold run_backup, initiate_full_backup, get_backup_file. emits. }
    exact (Hrb _ _ _ _ E).
Qed.
